(** * power: column-name normalisation, schema inference and the table store gateway

    A shallow embedding of [ai_service.py] and [database.py].

    Python's [str] is modelled by [string]: a sequence of code points below
    256 (the Latin-1 block of Unicode), each an [ascii].  On that block the
    character predicates below are the ones CPython's Unicode database
    gives; labels holding code points from 256 upward are outside the
    model. *)

From Stdlib Require Import List Bool Arith ZArith Lia Ascii String FinFun.
From Stdlib Require Import Decimal DecimalNat DecimalString.
Import ListNotations.

Open Scope string_scope.
Open Scope nat_scope.

(** ** Python's string methods on the Latin-1 block *)

Module Py.

Definition ord (c : ascii) : nat := nat_of_ascii c.

Definition between (lo hi : nat) (c : ascii) : bool :=
  (lo <=? ord c) && (ord c <=? hi).

(** [c.isalnum()]: decimal digits, ASCII letters, and the Latin-1 letters
    and numerics (feminine and masculine ordinal, superscripts 1 2 3,
    micro sign, vulgar fractions, the accented letters without the
    multiplication and division signs). *)
Definition isalnum (c : ascii) : bool :=
  between 48 57 c || between 65 90 c || between 97 122 c
  || (ord c =? 170) || between 178 179 c || (ord c =? 181)
  || between 185 186 c || between 188 190 c
  || between 192 214 c || between 216 246 c || between 248 255 c.

(** Characters that [str.strip()] removes. *)
Definition isspace (c : ascii) : bool :=
  between 9 13 c || between 28 32 c || (ord c =? 133) || (ord c =? 160).

Definition isupper (c : ascii) : bool :=
  between 65 90 c || between 192 214 c || between 216 222 c.

Definition lower_char (c : ascii) : ascii :=
  if isupper c then ascii_of_nat (ord c + 32) else c.

(** [string.ascii_letters + string.digits + '_'] *)
Definition ascii_word (c : ascii) : bool :=
  between 65 90 c || between 97 122 c || between 48 57 c || (c =? "_")%char.

Fixpoint map_str (f : ascii -> ascii) (s : string) : string :=
  match s with
  | EmptyString => EmptyString
  | String c rest => String (f c) (map_str f rest)
  end.

(** [''.join(c for c in s if keep(c))] *)
Fixpoint filter_str (keep : ascii -> bool) (s : string) : string :=
  match s with
  | EmptyString => EmptyString
  | String c rest =>
      if keep c then String c (filter_str keep rest) else filter_str keep rest
  end.

(** [all(p(c) for c in s)] *)
Fixpoint all_str (p : ascii -> bool) (s : string) : bool :=
  match s with
  | EmptyString => true
  | String c rest => p c && all_str p rest
  end.

Definition lower (s : string) : string := map_str lower_char s.

Fixpoint lstrip (s : string) : string :=
  match s with
  | EmptyString => EmptyString
  | String c rest => if isspace c then lstrip rest else s
  end.

Fixpoint rstrip (s : string) : string :=
  match s with
  | EmptyString => EmptyString
  | String c rest =>
      match rstrip rest with
      | EmptyString => if isspace c then EmptyString else String c EmptyString
      | kept => String c kept
      end
  end.

Definition strip (s : string) : string := rstrip (lstrip s).

(** [s.replace(old, new)] for a non-empty [old]: a left-to-right scan that
    replaces each occurrence and resumes after it.  [skip] counts the
    characters of a matched occurrence still to be passed over. *)
Fixpoint replace_from (old new : string) (skip : nat) (s : string) : string :=
  match s with
  | EmptyString => EmptyString
  | String c rest =>
      match skip with
      | S k => replace_from old new k rest
      | O =>
          if prefix old (String c rest)
          then new ++ replace_from old new (String.length old - 1) rest
          else String c (replace_from old new 0 rest)
      end
  end.

Definition replace (old new s : string) : string := replace_from old new 0 s.

(** [str(n)] for a natural number: decimal, no leading zero. *)
Definition str (n : nat) : string := NilEmpty.string_of_uint (Nat.to_uint n).

(** [s.isalnum()]: every character alphanumeric and at least one of them. *)
Definition isalnum_str (s : string) : bool :=
  negb (s =? "")%string && all_str isalnum s.

(** [', '.join(parts)] and friends *)
Definition join (sep : string) (parts : list string) : string :=
  String.concat sep parts.

(** [x in xs] on a list of strings *)
Definition mem (x : string) (xs : list string) : bool :=
  existsb (String.eqb x) xs.

(** Character sets the properties below speak of: decimal digits, the
    identifier alphabet a-z 0-9 _, and the ASCII block. *)
Definition isdigit (c : ascii) : bool := between 48 57 c.

Definition word_char (c : ascii) : bool :=
  between 97 122 c || between 48 57 c || (c =? "_")%char.

Definition is_ascii (c : ascii) : bool := ord c <? 128.

(** What line 122 of ai_service.py and line 56 of database.py keep. *)
Definition kept (c : ascii) : bool := isalnum c || (c =? "_")%char.

End Py.

(** ** ai_service.py: the name normaliser *)

(** A column label: a [str], or any other object (a number, [None], ...).
    The code never reads the value of a label that is not a string. *)
Inductive label : Type :=
| Str (s : string)
| NotStr.

(** Lines 119-122: the part of the loop body that rewrites one label. *)
Definition tidy (col : string) : string :=
  let clean_name := Py.strip (Py.lower col) in
  let clean_name := Py.replace "unnamed: " "column_" clean_name in
  let clean_name :=
    Py.replace "-" "_" (Py.replace ":" "_" (Py.replace " " "_" clean_name)) in
  Py.filter_str Py.kept clean_name.

(** Lines 125-127: [while clean_name in cleaned].  Each unit of [fuel] pays
    for one evaluation of the loop condition. *)
Fixpoint first_free (fuel : nat) (base_name clean_name : string) (counter : nat)
    (cleaned : list string) : option string :=
  match fuel with
  | O => None
  | S fuel' =>
      if Py.mem clean_name cleaned
      then first_free fuel' base_name
             (base_name ++ "_" ++ Py.str counter) (S counter) cleaned
      else Some clean_name
  end.

(** Lines 116-128: the [for] loop, [cleaned] being the list built so far.
    The inner loop gets one more unit of fuel than [cleaned] has entries,
    which [first_free_total] shows is always enough. *)
Fixpoint clean_loop (columns : list label) (cleaned : list string)
    : option (list string) :=
  match columns with
  | [] => Some cleaned
  | col :: rest =>
      let col :=
        match col with
        | Str s => s
        | NotStr => "column_" ++ Py.str (List.length cleaned)
        end in
      let base_name := tidy col in
      match first_free (S (List.length cleaned)) base_name base_name 1 cleaned with
      | Some clean_name => clean_loop rest (cleaned ++ [clean_name])%list
      | None => None
      end
  end.

Definition clean_column_names (columns : list label) : option (list string) :=
  clean_loop columns [].

(** The names the inner loop tries, in order: the base name, then the base
    name with [_1], [_2], ... *)
Definition candidate (base_name : string) (k : nat) : string :=
  match k with
  | O => base_name
  | S _ => base_name ++ "_" ++ Py.str k
  end.

(** What the spec calls a normalized identifier: not empty, and made of
    a-z, 0-9 and underscore only. *)
Definition normalized (s : string) : bool :=
  negb (s =? "")%string && Py.all_str Py.word_char s.

(** Every string among the labels is ASCII. *)
Definition ascii_labels (columns : list label) : Prop :=
  forall s, In (Str s) columns -> Py.all_str Py.is_ascii s = true.

(** The one-character label U+00E9, e with acute accent. *)
Definition e_acute : string := String (ascii_of_nat 233) EmptyString.

(** ** ai_service.py: the insight requestor *)

Module Insight.

(** One entry of [messages]. *)
Record message : Type := { role : string; content : string }.

(** The arguments of [client.chat.completions.create]. *)
Record request : Type := { model : string; messages : list message }.

(** The text-generation service: for a request, the text of
    [response.choices[0].message.content] or the text of the exception
    the call raises. *)
Inductive reply : Type :=
| Content (text : string)
| Raises (e : string).

Definition Client : Type := request -> reply.

(** A payload as Python passes it: a [str], or another object with its
    truth value and the text an f-string shows for it. *)
Inductive payload : Type :=
| Text (s : string)
| Object (truthy : bool) (shown : string).

Definition truth (p : payload) : bool :=
  match p with
  | Text s => negb (s =? "")%string
  | Object truthy _ => truthy
  end.

Definition show (p : payload) : string :=
  match p with
  | Text s => s
  | Object _ shown => shown
  end.

(** The fixed text around the payload in an f-string prompt. *)
Record template : Type := { before : string; after : string }.

Definition fill (t : template) (p : payload) : string :=
  before t ++ show p ++ after t.

(** What a call gives back: the returned string and the requests sent to
    the service on the way, in order. *)
Definition outcome : Type := (string * list request)%type.

Section Requestor.

(** The prompts and messages of the source are Korean text, outside the
    Latin-1 block; they are taken as given. *)
Variable schema_prompt queries_prompt code_prompt insights_prompt : template.
Variable modeller_role analyst_role : string.
Variable no_info_error invalid_sample_error : string.
Variable api_error_prefix_ko : string.

Variable client : Client.

(** Lines 27-37 (and 56-66, 82-89, 104-111): the guarded call. *)
Definition ask (error_prefix : string) (req : request) : outcome :=
  match client req with
  | Content text => (text, [req])
  | Raises e => (error_prefix ++ e, [req])
  end.

Definition gpt4 (msgs : list message) : request :=
  {| model := "gpt-4"; messages := msgs |}.

Definition analyze_data_structure (df_info : payload) : outcome :=
  if negb (truth df_info) then (no_info_error, [])
  else
    let prompt := fill schema_prompt df_info in
    ask api_error_prefix_ko
      (gpt4 [ {| role := "system"; content := modeller_role |};
              {| role := "user"; content := prompt |} ]).

Definition generate_analysis_queries (df_sample : payload) : outcome :=
  let prompt := fill queries_prompt df_sample in
  ask "OpenAI API error: "
    (gpt4 [ {| role := "system"; content := analyst_role |};
            {| role := "user"; content := prompt |} ]).

Definition generate_postgres_code (columns_info : payload) : outcome :=
  let prompt := fill code_prompt columns_info in
  ask "OpenAI API error: " (gpt4 [ {| role := "system"; content := prompt |} ]).

Definition generate_management_insights (sample_data_csv : payload) : outcome :=
  match sample_data_csv with
  | Object _ _ => (invalid_sample_error, [])
  | Text s =>
      if String.length (Py.strip s) <? 10 then (invalid_sample_error, [])
      else
        let prompt := fill insights_prompt sample_data_csv in
        ask "OpenAI API error: "
          (gpt4 [ {| role := "system"; content := prompt |} ])
  end.

End Requestor.

End Insight.

(** ** database.py: frames, the store and the statements sent to it *)

Module Frame.

(** A [pandas.Timestamp] by its fields. *)
Record Timestamp : Type := {
  year : nat; month : nat; day : nat;
  hour : nat; minute : nat; second : nat;
  microsecond : nat; nanosecond : nat
}.

(** One entry of a column.  [FloatV] carries the bit pattern of a float
    that is not NaN; nothing below looks inside it.  [Missing] is NaN,
    [None] or NaT. *)
Inductive cell : Type :=
| Missing
| IntV (z : Z)
| FloatV (bits : N)
| StrV (s : string)
| TimeV (t : Timestamp).

(** A column: [str(series.dtype)] and the entries. *)
Record Series : Type := { dtype : string; data : list cell }.

(** A frame: the labelled columns in order, and the number of rows. *)
Record DataFrame : Type := { series : list (string * Series); nrows : nat }.

Definition columns (df : DataFrame) : list string := map fst (series df).

Definition empty : DataFrame := {| series := []; nrows := 0 |}.

(** [df[col]]: the columns carrying that label. *)
Definition getitem (df : DataFrame) (col : string) : list Series :=
  map snd (filter (fun e => (fst e =? col)%string) (series df)).

(** [df[col] = s] for a label the frame has: the column is replaced in
    place. *)
Definition setitem (df : DataFrame) (col : string) (s : Series) : DataFrame :=
  {| series :=
       map (fun e => if (fst e =? col)%string then (fst e, s) else e) (series df);
     nrows := nrows df |}.

(** [df.values]: one row per index position.  This is the array pandas
    builds for a frame that has a column of Python objects (text, or the
    strings line 71 puts in place of timestamps): an array of objects, each
    entry handed over as it is.  For a frame of numeric columns only, pandas
    first converts all of them to one common dtype ([int64] beside
    [float64] becomes [float64]); that conversion is not modelled, and no
    property below reads the entries of such a frame. *)
Definition values (df : DataFrame) : list (list cell) :=
  map (fun i => map (fun e => nth i (data (snd e)) Missing) (series df))
      (seq 0 (nrows df)).

(** [str(n).zfill(width)] *)
Definition zfill (width : nat) (n : nat) : string :=
  let digits := Py.str n in
  Py.join "" (repeat "0" (width - String.length digits)) ++ digits.

(** [t.strftime('%Y-%m-%d %H:%M:%S')] *)
Definition strftime (t : Timestamp) : string :=
  zfill 4 (year t) ++ "-" ++ zfill 2 (month t) ++ "-" ++ zfill 2 (day t)
  ++ " " ++ zfill 2 (hour t) ++ ":" ++ zfill 2 (minute t)
  ++ ":" ++ zfill 2 (second t).

(** [s.dt.strftime(...)] on a [datetime64[ns]] column, whose entries are
    timestamps or NaT; NaT comes out as a missing entry.  The result is a
    column of Python objects. *)
Definition dt_strftime (s : Series) : Series :=
  {| dtype := "object";
     data := map (fun c => match c with
                           | TimeV t => StrV (strftime t)
                           | _ => Missing
                           end) (data s) |}.

End Frame.

Module Database.

Import Frame.

(** What the code asks of the connection and its cursor. *)
Inductive db_call : Type :=
| Execute (query : string)
| ExecuteValues (query : string) (argslist : list (list cell)) (page_size : nat)
| ReadSql (query : string)
| Commit
| CloseCursor
| CloseConn.

(** The relational store as the code meets it: whether a connection can be
    had, whether a call raises given the calls made before it, and the
    frame a query reads. *)
Record Store : Type := {
  connects : bool;
  accepts : list db_call -> db_call -> bool;
  answers : list db_call -> string -> DataFrame
}.

(** A computation over the log of calls made so far; it returns a value or
    raises. *)
Inductive result (A : Type) : Type :=
| Ok (a : A)
| Raised.
Arguments Ok {A} a.
Arguments Raised {A}.

Definition Db (A : Type) : Type := list db_call -> result A * list db_call.

Definition ret {A} (a : A) : Db A := fun log => (Ok a, log).

Definition raise {A} : Db A := fun log => (Raised, log).

Definition bind {A B} (m : Db A) (k : A -> Db B) : Db B :=
  fun log =>
    match m log with
    | (Ok a, log') => k a log'
    | (Raised, log') => (Raised, log')
    end.

(** [try: body except Exception: handler] *)
Definition try_except {A} (body handler : Db A) : Db A :=
  fun log =>
    match body log with
    | (Ok a, log') => (Ok a, log')
    | (Raised, log') => handler log'
    end.

(** [try: body finally: cleanup], for a cleanup that does not raise. *)
Definition finally {A} (body : Db A) (cleanup : Db unit) : Db A :=
  fun log =>
    match body log with
    | (r, log') => (r, snd (cleanup log'))
    end.

Notation "x <- m ;; k" := (bind m (fun x => k))
  (at level 61, m at next level, right associativity).
Notation "m ;; k" := (bind m (fun _ => k))
  (at level 61, right associativity).

Section Gateway.

Variable db : Store.

(** A call that the store may refuse by raising. *)
Definition call (c : db_call) : Db unit :=
  fun log =>
    ((if accepts db log c then Ok tt else Raised), (log ++ [c])%list).

(** [cursor.close()], [conn.close()]: logged, taken not to raise. *)
Definition close (c : db_call) : Db unit :=
  fun log => (Ok tt, (log ++ [c])%list).

(** [pd.read_sql(query, conn)] *)
Definition read_sql (query : string) : Db DataFrame :=
  fun log =>
    let c := ReadSql query in
    ((if accepts db log c then Ok (answers db log query) else Raised),
     (log ++ [c])%list).

Definition nl : string := String (ascii_of_nat 10) EmptyString.

Definition indent (n : nat) : string := Py.join "" (repeat " " n).

(** Lines 26-31 *)
Definition col_type (dtype : string) : string :=
  if Py.mem dtype ["int64"; "float64"] then "NUMERIC"
  else if (dtype =? "datetime64[ns]")%string then "TIMESTAMP"
  else "TEXT".

(** Lines 24-32 *)
Definition column_definitions (columns dtypes : list string) : list string :=
  map (fun cd => fst cd ++ " " ++ col_type (snd cd)) (combine columns dtypes).

(** Lines 34-41 *)
Definition create_table_query (table_name : string)
    (column_definitions : list string) : string :=
  nl ++ indent 12 ++ "DROP TABLE IF EXISTS " ++ table_name ++ ";"
  ++ nl ++ indent 12 ++ "CREATE TABLE " ++ table_name ++ " ("
  ++ nl ++ indent 16 ++ "id SERIAL PRIMARY KEY,"
  ++ nl ++ indent 16 ++ "created_at TIMESTAMP DEFAULT CURRENT_TIMESTAMP,"
  ++ nl ++ indent 16 ++ Py.join ", " column_definitions
  ++ nl ++ indent 12 ++ ");"
  ++ nl ++ indent 8.

(** Lines 21-46; the cursor is the log. *)
Definition create_table (table_name : string) (columns dtypes : list string)
    : Db bool :=
  try_except
    (call (Execute (create_table_query table_name
                      (column_definitions columns dtypes))) ;;
     ret true)
    (ret false).

(** Line 56 *)
Definition sanitize (table_name : string) : string :=
  Py.lower (Py.filter_str Py.kept table_name).

(** Line 64: [str(df[col].dtype)], which raises when the label names
    more than one column ([df[col]] is then a frame, without [dtype]). *)
Definition dtype_of (df : DataFrame) (col : string) : Db string :=
  match getitem df col with
  | [s] => ret (dtype s)
  | _ => raise
  end.

Fixpoint dtypes_of (df : DataFrame) (cols : list string) : Db (list string) :=
  match cols with
  | [] => ret []
  | col :: rest =>
      d <- dtype_of df col ;;
      ds <- dtypes_of df rest ;;
      ret (d :: ds)
  end.

(** Lines 69-71, one turn of the loop. *)
Definition format_column (df : DataFrame) (col : string) : DataFrame :=
  match getitem df col with
  | [s] =>
      if (dtype s =? "datetime64[ns]")%string
      then setitem df col (dt_strftime s)
      else df
  | _ => df
  end.

(** Lines 69-71 *)
Definition format_datetimes (df : DataFrame) : DataFrame :=
  fold_left format_column (columns df) df.

(** Lines 74-77 *)
Definition insert_query (table_name : string) (columns : list string) : string :=
  nl ++ indent 12 ++ "INSERT INTO " ++ table_name
  ++ " (" ++ Py.join ", " columns ++ ")"
  ++ nl ++ indent 12 ++ "VALUES %s;"
  ++ nl ++ indent 8.

(** Lines 48-93.  [df] is the frame after line 53 rebinds it to
    [df.copy().fillna('')]: what pandas puts in place of missing entries,
    and which dtype it then reports, is the library's own business.  The
    messages shown through streamlit are left out. *)
Definition save_to_postgres (df : DataFrame) (table_name : string) : Db bool :=
  let table_name := sanitize table_name in
  if negb (connects db) then ret false
  else
    finally
      (try_except
         (let columns := columns df in
          dtypes <- dtypes_of df columns ;;
          created <- create_table table_name columns dtypes ;;
          if negb created then ret false
          else
            let df := format_datetimes df in
            let values := values df in
            call (ExecuteValues (insert_query table_name columns) values 1000) ;;
            call Commit ;;
            ret true)
         (call (Execute "ROLLBACK") ;; ret false))
      (close CloseCursor ;; close CloseConn).

(** Line 102 *)
Definition valid_table_name (table_name : string) : bool :=
  negb (negb (Py.isalnum_str table_name)
        && negb (Py.all_str Py.ascii_word table_name)).

(** Lines 95-111 *)
Definition fetch_from_postgres (table_name : string) : Db DataFrame :=
  if negb (connects db) then ret empty
  else
    finally
      (try_except
         (if negb (valid_table_name table_name) then raise
          else
            let query := "SELECT * FROM " ++ table_name ++ ";" in
            read_sql query)
         (ret empty))
      (close CloseConn).

End Gateway.

(** *** Vocabulary of the properties *)

(** The type tags of the columns, in order. *)
Definition dtypes (df : DataFrame) : list string :=
  map (fun e => dtype (snd e)) (series df).

(** Every label of the frame names one column: what line 64 needs in order
    not to raise. *)
Definition unique (df : DataFrame) : bool :=
  forallb (fun col => List.length (getitem df col) =? 1) (columns df).

(** The two statements [save_to_postgres] builds for a frame. *)
Definition create_call (df : DataFrame) (table_name : string) : db_call :=
  Execute (create_table_query (sanitize table_name)
             (column_definitions (columns df) (dtypes df))).

Definition insert_call (df : DataFrame) (table_name : string) : db_call :=
  ExecuteValues (insert_query (sanitize table_name) (columns df))
    (values (format_datetimes df)) 1000.

(** Lines 84-93 after the calls in [log]: the handler, then the cleanup. *)
Definition rolled_back (db : Store) (log : list db_call)
    : result bool * list db_call :=
  ((if accepts db log (Execute "ROLLBACK") then Ok false else Raised),
   (log ++ [Execute "ROLLBACK"; CloseCursor; CloseConn])%list).

(** [part] stands in [whole], character for character. *)
Definition occurs (part whole : string) : Prop :=
  exists pre post, whole = pre ++ part ++ post.

(** A timestamp cut down to whole seconds. *)
Definition to_second (t : Timestamp) : Timestamp :=
  {| year := year t; month := month t; day := day t;
     hour := hour t; minute := minute t; second := second t;
     microsecond := 0; nanosecond := 0 |}.

(** What lines 69-71 make of one column. *)
Definition formatted (e : string * Series) : string * Series :=
  if (dtype (snd e) =? "datetime64[ns]")%string
  then (fst e, dt_strftime (snd e))
  else e.

(** One turn of that loop, for the label [col]. *)
Definition formatted_at (col : string) (e : string * Series) : string * Series :=
  if (fst e =? col)%string && (dtype (snd e) =? "datetime64[ns]")%string
  then (fst e, dt_strftime (snd e))
  else e.

(** A store that is there and refuses nothing. *)
Definition willing : Store :=
  {| connects := true;
     accepts := fun _ _ => true;
     answers := fun _ _ => empty |}.

(** The upload of the spec's example: two rows, an integer column [id] and
    a text column [name]. *)
Definition upload_example : DataFrame :=
  {| series :=
       [ ("id", {| dtype := "int64"; data := [IntV 1; IntV 2] |});
         ("name", {| dtype := "object"; data := [StrV "ann"; StrV "bob"] |}) ];
     nrows := 2 |}.

(** A store that is there and refuses every call. *)
Definition refusing : Store :=
  {| connects := true;
     accepts := fun _ _ => false;
     answers := fun _ _ => empty |}.

(** A frame of one row whose labels are identifiers: a float column and a
    timestamp column. *)
Definition sales_example : DataFrame :=
  {| series :=
       [ ("price", {| dtype := "float64"; data := [FloatV 0] |});
         ("sold_at",
          {| dtype := "datetime64[ns]";
             data := [TimeV {| year := 2024; month := 3; day := 9;
                               hour := 7; minute := 5; second := 1;
                               microsecond := 250; nanosecond := 7 |}] |}) ];
     nrows := 1 |}.

(** A frame whose labels were not normalized, with a timestamp column. *)
Definition raw_example : DataFrame :=
  {| series :=
       [ ("unit price ($)", {| dtype := "float64"; data := [FloatV 0] |});
         ("Sold-At",
          {| dtype := "datetime64[ns]";
             data := [TimeV {| year := 2024; month := 3; day := 9;
                               hour := 7; minute := 5; second := 1;
                               microsecond := 250; nanosecond := 7 |}] |}) ];
     nrows := 1 |}.

End Database.

(** ** More of the name normaliser's vocabulary *)

Module Labels.

(** The name line 123 calls [base_name] for the label at position [i], when
    no name was dropped or added before it. *)
Definition base_of (i : nat) (col : label) : string :=
  tidy (match col with
        | Str s => s
        | NotStr => "column_" ++ Py.str i
        end).

(** The placeholder of line 118 for position [i]. *)
Definition placeholder (i : nat) : string := "column_" ++ Py.str i.

(** A label with its letters lowered. *)
Definition lowered (col : label) : label :=
  match col with
  | Str s => Str (Py.lower s)
  | NotStr => NotStr
  end.

End Labels.

(** ** main.py: renaming the columns before the upload is stored *)

Module Upload.

Import Frame.



End Upload.

(** ** database.py: the table list and the analysis archive *)

Module Archive.

Import Frame Database.

(** What these functions ask of the database: a connection, a cursor of
    the connection, the calls of a connection and its cursor, and a
    statement executed with parameters. *)
Inductive call : Type :=
| Connect
| Cursor
| Plain (c : db_call)
| ExecuteWith (query : string) (params : list (option string)).

(** The database server as the code meets it: whether a request raises
    given all the requests made before it, and the frame a query reads.  A
    refused [Connect] is a connection that cannot be had. *)
Record Server : Type := {
  permits : list call -> call -> bool;
  shows : list call -> string -> DataFrame
}.

Definition Run (A : Type) : Type := list call -> result A * list call.

Definition unit_run {A} (a : A) : Run A := fun log => (Ok a, log).

Definition fail {A} : Run A := fun log => (Raised, log).

Definition and_then {A B} (m : Run A) (k : A -> Run B) : Run B :=
  fun log =>
    match m log with
    | (Ok a, log') => k a log'
    | (Raised, log') => (Raised, log')
    end.

(** [try: body except Exception: handler] *)
Definition guarded {A} (body handler : Run A) : Run A :=
  fun log =>
    match body log with
    | (Ok a, log') => (Ok a, log')
    | (Raised, log') => handler log'
    end.

(** [try: body finally: cleanup], for a cleanup that does not raise. *)
Definition ensuring {A} (body : Run A) (cleanup : Run unit) : Run A :=
  fun log =>
    match body log with
    | (r, log') => (r, snd (cleanup log'))
    end.

Notation "x <~ m ;;; k" := (and_then m (fun x => k))
  (at level 61, m at next level, right associativity).
Notation "m ;;; k" := (and_then m (fun _ => k))
  (at level 61, right associativity).

Section Functions.

Variable srv : Server.

(** Lines 12-19, [get_db_connection]: the connection, or [None] when
    [psycopg2.connect] raises. *)
Definition get_db_connection : Run bool :=
  fun log => (Ok (permits srv log Connect), (log ++ [Connect])%list).

(** A request that the server may refuse by raising. *)
Definition send (c : call) : Run unit :=
  fun log => ((if permits srv log c then Ok tt else Raised), (log ++ [c])%list).

(** [cursor.close()], [conn.close()]: logged, taken not to raise. *)
Definition shut (c : db_call) : Run unit :=
  fun log => (Ok tt, (log ++ [Plain c])%list).

(** [pd.read_sql(query, conn)] *)
Definition read (query : string) : Run DataFrame :=
  fun log =>
    let c := Plain (ReadSql query) in
    ((if permits srv log c then Ok (shows srv log query) else Raised),
     (log ++ [c])%list).

Definition nl : string := String (ascii_of_nat 10) EmptyString.

Definition indent (n : nat) : string := Py.join "" (repeat " " n).

(** Line 119 *)
Definition list_tables_query : string :=
  "SELECT table_name FROM information_schema.tables WHERE table_schema = 'public';".

(** Lines 113-126.  [df['table_name']] raises unless the frame has one
    column of that name. *)
Definition list_tables : Run (list cell) :=
  conn <~ get_db_connection ;;;
  if negb conn then unit_run []
  else
    ensuring
      (guarded
         (df <~ read list_tables_query ;;;
          match getitem df "table_name" with
          | [s] => unit_run (data s)
          | _ => fail
          end)
         (unit_run []))
      (shut CloseConn).

(** Lines 137-149 *)
Definition create_query : string :=
  nl ++ indent 12 ++ "CREATE TABLE IF NOT EXISTS analysis_archive ("
  ++ nl ++ indent 16 ++ "id SERIAL PRIMARY KEY,"
  ++ nl ++ indent 16 ++ "file_name TEXT,"
  ++ nl ++ indent 16 ++ "sheet_name TEXT,"
  ++ nl ++ indent 16 ++ "upload_time TIMESTAMP DEFAULT CURRENT_TIMESTAMP,"
  ++ nl ++ indent 16 ++ "table_structure TEXT,"
  ++ nl ++ indent 16 ++ "analysis_queries TEXT,"
  ++ nl ++ indent 16 ++ "insights TEXT,"
  ++ nl ++ indent 16 ++ "raw_sample_data TEXT,"
  ++ nl ++ indent 16 ++ "ppt_report TEXT"
  ++ nl ++ indent 12 ++ ");"
  ++ nl ++ indent 8.

(** [try: cursor = conn.cursor(); body] [except Exception: handler]
    [finally: if cursor: cursor.close(); conn.close()], in a function that
    binds the name [cursor] nowhere else (lines 135-157 and 165-182).  When
    [conn.cursor()] raises, the handler runs and then the [finally] block
    reads the name [cursor], which was never bound: that raises
    [UnboundLocalError], which takes the place of whatever the handler
    returned and leaves the function before [conn.close()] is reached. *)
Definition with_cursor {A} (body handler : Run A) : Run A :=
  fun log =>
    let log' := (log ++ [Cursor])%list in
    if permits srv log Cursor
    then ensuring (guarded body handler)
                  (shut CloseCursor ;;; shut CloseConn) log'
    else (Raised, snd (handler log')).

(** Lines 130-157 *)
Definition create_analysis_archive_table : Run unit :=
  conn <~ get_db_connection ;;;
  if negb conn then unit_run tt
  else
    with_cursor
      (send (Plain (Execute create_query)) ;;;
       send (Plain Commit))
      (unit_run tt).

(** Lines 168-171 *)
Definition insert_query : string :=
  nl ++ indent 12
  ++ "INSERT INTO analysis_archive (file_name, sheet_name, table_structure, analysis_queries, insights, raw_sample_data, ppt_report)"
  ++ nl ++ indent 12 ++ "VALUES (%s, %s, %s, %s, %s, %s, %s);"
  ++ nl ++ indent 8.

(** Lines 159-182.  [ppt_report] is a string or [None].  The call of line
    162 stands outside the [try]: what it raises leaves this function at
    once. *)
Definition save_analysis_result (file_name sheet_name table_structure
    analysis_queries insights raw_sample_data : string)
    (ppt_report : option string) : Run bool :=
  create_analysis_archive_table ;;;
  conn <~ get_db_connection ;;;
  if negb conn then unit_run false
  else
    with_cursor
      (send (ExecuteWith insert_query
               [Some file_name; Some sheet_name; Some table_structure;
                Some analysis_queries; Some insights; Some raw_sample_data;
                ppt_report]) ;;;
       send (Plain Commit) ;;;
       unit_run true)
      (unit_run false).

(** Line 190 *)
Definition list_analysis_query : string :=
  "SELECT id, file_name, sheet_name, upload_time FROM analysis_archive ORDER BY upload_time DESC;".

(** Lines 184-197 *)
Definition list_analysis_results : Run DataFrame :=
  conn <~ get_db_connection ;;;
  if negb conn then unit_run empty
  else
    ensuring
      (guarded (read list_analysis_query) (unit_run empty))
      (shut CloseConn).

End Functions.

(** How many connections a run opened and how many it closed: a [Connect]
    counts when the server permitted it at its place in the log. *)
Fixpoint opened (srv : Server) (before rest : list call) : nat :=
  match rest with
  | [] => 0
  | c :: rest' =>
      (match c with
       | Connect => if permits srv before Connect then 1 else 0
       | _ => 0
       end) + opened srv (before ++ [c]) rest'
  end.

Fixpoint closed (log : list call) : nat :=
  match log with
  | [] => 0
  | Plain CloseConn :: rest => S (closed rest)
  | _ :: rest => closed rest
  end.

(** The statement text of a call, when it has one. *)
Definition text_of (c : call) : option string :=
  match c with
  | Plain (Execute q) => Some q
  | Plain (ExecuteValues q _ _) => Some q
  | Plain (ReadSql q) => Some q
  | ExecuteWith q _ => Some q
  | _ => None
  end.

(** A server that refuses nothing and shows the tables [sales] and
    [people]. *)
Definition open_server : Server :=
  {| permits := fun _ _ => true;
     shows := fun _ _ =>
       {| series := [ ("table_name",
                       {| dtype := "object";
                          data := [StrV "sales"; StrV "people"] |}) ];
          nrows := 2 |} |}.

End Archive.

(** ** main.py: the cleanup of temporary files *)

Module Files.

(** The files that exist, by path.  Two paths are the same file when they
    are the same string. *)
Definition Disk : Type := list string.

Section Cleanup.

(** Whether [os.remove(path)] succeeds; when it raises, the error is logged
    and the file stays. *)
Variable removable : string -> bool.

(** [os.path.exists(path)] *)
Definition path_exists (disk : Disk) (path : string) : bool := Py.mem path disk.

(** [os.remove(path)] that succeeds *)
Definition remove (disk : Disk) (path : string) : Disk :=
  filter (fun q => negb (q =? path)%string) disk.

(** Lines 58-62, one turn of the loop; a path is a string or [None]. *)
Definition cleanup_one (disk : Disk) (path : option string) : Disk :=
  match path with
  | Some p =>
      if negb (p =? "")%string && path_exists disk p
      then (if removable p then remove disk p else disk)
      else disk
  | None => disk
  end.

(** Lines 56-62 *)
Definition cleanup_temp_files (paths : list (option string)) (disk : Disk) : Disk :=
  fold_left cleanup_one paths disk.

End Cleanup.

End Files.

(** * Properties *)

(** ** Strings *)

Module PyFacts.

Import Py.

Lemma append_assoc (a b c : string) : (a ++ b) ++ c = a ++ (b ++ c).
Proof. induction a as [|x a IH]; simpl; [reflexivity | now rewrite IH]. Qed.

Lemma append_nil_r (a : string) : a ++ "" = a.
Proof. induction a as [|x a IH]; simpl; [reflexivity | now rewrite IH]. Qed.

Lemma append_length (a b : string) :
  String.length (a ++ b) = String.length a + String.length b.
Proof. induction a as [|x a IH]; simpl; [reflexivity | now rewrite IH]. Qed.

Lemma append_cancel_l (a b c : string) : a ++ b = a ++ c -> b = c.
Proof.
  induction a as [|x a IH]; simpl; intros H; [exact H|].
  injection H as H. now apply IH.
Qed.

Lemma mem_In (x : string) (xs : list string) : mem x xs = true <-> In x xs.
Proof.
  unfold mem. rewrite existsb_exists. split.
  - intros [y [Hy E]]. apply String.eqb_eq in E. now subst.
  - intros H. exists x. split; [exact H | apply String.eqb_refl].
Qed.

Lemma mem_false (x : string) (xs : list string) : mem x xs = false <-> ~ In x xs.
Proof.
  rewrite <- mem_In. destruct (mem x xs); split; congruence.
Qed.

Lemma str_inj (n m : nat) : str n = str m -> n = m.
Proof.
  unfold str. intros H.
  apply DecimalNat.Unsigned.to_uint_inj.
  assert (E : Some (Nat.to_uint n) = Some (Nat.to_uint m))
    by (rewrite <- !NilEmpty.usu; now rewrite H).
  now injection E.
Qed.

(** [all_str] against the operations that build a name. *)

Lemma all_str_append (p : ascii -> bool) (a b : string) :
  all_str p (a ++ b) = all_str p a && all_str p b.
Proof.
  induction a as [|x a IH]; simpl; [reflexivity|].
  now rewrite IH, andb_assoc.
Qed.

Lemma all_str_impl (p q : ascii -> bool) (s : string) :
  (forall c, p c = true -> q c = true) ->
  all_str p s = true -> all_str q s = true.
Proof.
  intros Hpq. induction s as [|x s IH]; simpl; [reflexivity|].
  rewrite !andb_true_iff. intros [Hx Hs]. split; auto.
Qed.

Lemma all_str_map (p : ascii -> bool) (f : ascii -> ascii) (s : string) :
  (forall c, p (f c) = true) -> all_str p (map_str f s) = true.
Proof.
  intros Hf. induction s as [|x s IH]; simpl; [reflexivity|].
  now rewrite Hf, IH.
Qed.

Lemma all_str_filter (p keep : ascii -> bool) (s : string) :
  all_str p s = true ->
  all_str (fun c => keep c && p c) (filter_str keep s) = true.
Proof.
  induction s as [|x s IH]; simpl; [reflexivity|].
  rewrite andb_true_iff. intros [Hx Hs].
  destruct (keep x) eqn:K; simpl; [rewrite K, Hx; simpl|]; auto.
Qed.

Lemma all_str_filter_keep (keep : ascii -> bool) (s : string) :
  all_str keep (filter_str keep s) = true.
Proof.
  induction s as [|x s IH]; simpl; [reflexivity|].
  destruct (keep x) eqn:K; simpl; [now rewrite K|exact IH].
Qed.

Lemma all_str_lstrip (p : ascii -> bool) (s : string) :
  all_str p s = true -> all_str p (lstrip s) = true.
Proof.
  induction s as [|x s IH]; simpl; [reflexivity|].
  intros H. destruct (isspace x); [|exact H].
  apply andb_true_iff in H. now apply IH.
Qed.

Lemma all_str_rstrip (p : ascii -> bool) (s : string) :
  all_str p s = true -> all_str p (rstrip s) = true.
Proof.
  induction s as [|x s IH]; simpl; [reflexivity|].
  rewrite andb_true_iff. intros [Hx Hs]. specialize (IH Hs).
  destruct (rstrip s) as [|y kept].
  - destruct (isspace x); simpl; [reflexivity | now rewrite Hx].
  - change (all_str p (String x (String y kept))) with
      (p x && all_str p (String y kept)). now rewrite Hx, IH.
Qed.

Lemma all_str_replace_from (p : ascii -> bool) (old new : string) :
  all_str p new = true ->
  forall s skip, all_str p s = true ->
    all_str p (replace_from old new skip s) = true.
Proof.
  intros Hnew. induction s as [|x s IH]; intros skip; [reflexivity|].
  simpl all_str at 1. rewrite andb_true_iff. intros [Hx Hs].
  cbn [replace_from]. destruct skip as [|k]; [|now apply IH].
  destruct (prefix old (String x s)).
  - rewrite all_str_append, Hnew. simpl. now apply IH.
  - simpl. rewrite Hx. simpl. now apply IH.
Qed.

Lemma all_str_replace (p : ascii -> bool) (old new s : string) :
  all_str p new = true -> all_str p s = true ->
  all_str p (replace old new s) = true.
Proof. intros Hn Hs. now apply all_str_replace_from. Qed.

(** The digits of [str n]. *)

Lemma all_str_digits (d : Decimal.uint) :
  all_str isdigit (NilEmpty.string_of_uint d) = true.
Proof. induction d; simpl; auto. Qed.

Lemma all_str_str (n : nat) : all_str isdigit (str n) = true.
Proof. apply all_str_digits. Qed.

(** Strings that the cleaning steps leave alone. *)

Lemma lstrip_fixed (s : string) :
  all_str (fun c => negb (isspace c)) s = true -> lstrip s = s.
Proof.
  destruct s as [|x s]; simpl; [reflexivity|].
  rewrite andb_true_iff, negb_true_iff. intros [Hx _]. now rewrite Hx.
Qed.

Lemma rstrip_fixed (s : string) :
  all_str (fun c => negb (isspace c)) s = true -> rstrip s = s.
Proof.
  induction s as [|x s IH]; simpl; [reflexivity|].
  rewrite andb_true_iff, negb_true_iff. intros [Hx Hs].
  rewrite (IH Hs). destruct s; [now rewrite Hx | reflexivity].
Qed.

Lemma map_str_fixed (f : ascii -> ascii) (p : ascii -> bool) (s : string) :
  (forall c, p c = true -> f c = c) ->
  all_str p s = true -> map_str f s = s.
Proof.
  intros Hf. induction s as [|x s IH]; simpl; [reflexivity|].
  rewrite andb_true_iff. intros [Hx Hs]. now rewrite (Hf _ Hx), (IH Hs).
Qed.

Lemma filter_str_fixed (keep : ascii -> bool) (s : string) :
  all_str keep s = true -> filter_str keep s = s.
Proof.
  induction s as [|x s IH]; simpl; [reflexivity|].
  rewrite andb_true_iff. intros [Hx Hs]. now rewrite Hx, (IH Hs).
Qed.

Lemma prefix_all_str (p : ascii -> bool) (a b : string) :
  prefix a b = true -> all_str p b = true -> all_str p a = true.
Proof.
  revert b. induction a as [|x a IH]; intros b; [reflexivity|].
  destruct b as [|y b]; simpl; [discriminate|].
  destruct (ascii_dec x y) as [->|]; [|discriminate].
  rewrite andb_true_iff. intros Hp [Hy Hb]. rewrite Hy. simpl. eauto.
Qed.

(** A string that lacks one of the characters of [old] holds no
    occurrence of it. *)
Lemma replace_fixed (p : ascii -> bool) (old new s : string) :
  all_str p old = false -> all_str p s = true -> replace old new s = s.
Proof.
  intros Hold. unfold replace. induction s as [|x s IH]; [reflexivity|].
  intros Hs. cbn [replace_from].
  destruct (prefix old (String x s)) eqn:E.
  - rewrite (prefix_all_str p _ _ E Hs) in Hold. discriminate.
  - simpl in Hs. apply andb_true_iff in Hs. now rewrite (IH (proj2 Hs)).
Qed.

(** Facts about single characters, by running through all 256. *)

Ltac each_char c :=
  destruct c as [[] [] [] [] [] [] [] []]; vm_compute; try reflexivity;
  try discriminate; auto.

Lemma lower_char_not_upper (c : ascii) : isupper (lower_char c) = false.
Proof. each_char c. Qed.

Lemma lower_char_ascii (c : ascii) :
  is_ascii c = true -> is_ascii (lower_char c) = true.
Proof. each_char c. Qed.

Lemma word_char_of_kept (c : ascii) :
  kept c && (is_ascii c && negb (isupper c)) = true ->
  word_char c = true.
Proof. each_char c. Qed.

Lemma word_char_kept (c : ascii) :
  word_char c = true -> kept c = true.
Proof. each_char c. Qed.

Lemma word_char_lower (c : ascii) : word_char c = true -> lower_char c = c.
Proof. each_char c. Qed.

Lemma word_char_not_space (c : ascii) :
  word_char c = true -> negb (isspace c) = true.
Proof. each_char c. Qed.

Lemma digit_word_char (c : ascii) : isdigit c = true -> word_char c = true.
Proof. each_char c. Qed.

Lemma digit_alnum (c : ascii) : isdigit c = true -> isalnum c = true.
Proof. each_char c. Qed.

Lemma digit_not_upper (c : ascii) : isdigit c = true -> isupper c = false.
Proof. each_char c. Qed.

Lemma digit_not_upper_b (c : ascii) :
  isdigit c = true -> negb (isupper c) = true.
Proof. each_char c. Qed.

Lemma digit_ascii_lower (c : ascii) :
  isdigit c = true -> is_ascii c && negb (isupper c) = true.
Proof. each_char c. Qed.

Lemma ascii_word_alnum (c : ascii) :
  ascii_word c = true -> kept c = true.
Proof. each_char c. Qed.

Lemma lower_char_alnum (c : ascii) :
  kept c = true -> kept (lower_char c) = true.
Proof. each_char c. Qed.

End PyFacts.

(** ** The name normaliser *)

Module Normalizer.

Import Py PyFacts.

Lemma candidate_inj (base_name : string) (i j : nat) :
  candidate base_name i = candidate base_name j -> i = j.
Proof.
  destruct i as [|i], j as [|j]; simpl; intros H; [reflexivity| | |].
  - apply (f_equal String.length) in H. rewrite append_length in H.
    simpl in H. lia.
  - apply (f_equal String.length) in H. rewrite append_length in H.
    simpl in H. lia.
  - apply append_cancel_l in H. injection H as H. now apply str_inj.
Qed.

(** Running out of fuel means every name tried was taken. *)
Lemma first_free_none (cleaned : list string) (base_name : string) :
  forall fuel k,
    first_free fuel base_name (candidate base_name k) (S k) cleaned = None ->
    forall j, k <= j < k + fuel -> In (candidate base_name j) cleaned.
Proof.
  induction fuel as [|fuel IH]; intros k H j Hj; [lia|].
  simpl in H. destruct (mem (candidate base_name k) cleaned) eqn:M;
    [|discriminate].
  destruct (Nat.eq_dec j k) as [->|Hne]; [now apply mem_In|].
  apply (IH (S k)); [exact H | lia].
Qed.

Lemma first_free_some (cleaned : list string) (base_name : string) :
  forall fuel k name,
    first_free fuel base_name (candidate base_name k) (S k) cleaned = Some name ->
    ~ In name cleaned /\ exists j, name = candidate base_name j.
Proof.
  induction fuel as [|fuel IH]; intros k name H; [discriminate|].
  simpl in H. destruct (mem (candidate base_name k) cleaned) eqn:M.
  - apply (IH (S k)). exact H.
  - injection H as <-. split; [now apply mem_false | now exists k].
Qed.

(** One more unit of fuel than [cleaned] has entries is enough: the names
    tried are pairwise different, so they cannot all be taken. *)
Lemma first_free_total (cleaned : list string) (base_name : string) :
  exists name,
    first_free (S (List.length cleaned)) base_name base_name 1 cleaned = Some name.
Proof.
  destruct (first_free (S (List.length cleaned)) base_name base_name 1 cleaned)
    as [name|] eqn:E; [now exists name|].
  exfalso.
  pose proof (first_free_none cleaned base_name _ 0 E) as Hall.
  set (tried := map (candidate base_name) (seq 0 (S (List.length cleaned)))).
  assert (Hnd : NoDup tried).
  { apply Injective_map_NoDup; [|apply seq_NoDup].
    intros i j. apply candidate_inj. }
  assert (Hincl : incl tried cleaned).
  { intros x Hx. apply in_map_iff in Hx. destruct Hx as [j [<- Hj]].
    apply in_seq in Hj. apply Hall. lia. }
  pose proof (NoDup_incl_length Hnd Hincl) as Hlen.
  unfold tried in Hlen. rewrite length_map, length_seq in Hlen. lia.
Qed.

Lemma clean_loop_unique :
  forall columns cleaned,
    NoDup cleaned ->
    exists out,
      clean_loop columns cleaned = Some out
      /\ List.length out = List.length cleaned + List.length columns
      /\ NoDup out.
Proof.
  induction columns as [|col rest IH]; intros cleaned Hnd; cbn [clean_loop].
  - exists cleaned. repeat split; [simpl; lia | exact Hnd].
  - match goal with |- context [first_free _ ?b ?b 1 _] => set (base_name := b) end.
    destruct (first_free_total cleaned base_name) as [name Hname].
    rewrite Hname.
    destruct (first_free_some cleaned base_name _ 0 name Hname) as [Hfresh _].
    destruct (IH (cleaned ++ [name])%list) as [out [Hout [Hlen Hnd']]].
    { apply NoDup_app; [exact Hnd | repeat constructor; simpl; tauto|].
      intros x Hx [<-|[]]. contradiction. }
    exists out. repeat split; [exact Hout | | exact Hnd'].
    rewrite Hlen, length_app. simpl. lia.
Qed.

Lemma clean_column_names_total (columns : list label) :
  exists out, clean_column_names columns = Some out.
Proof.
  destruct (clean_loop_unique columns [] (NoDup_nil _)) as [out [H _]].
  now exists out.
Qed.

(** C1: for every list of column labels, [clean_column_names] returns, and
    the list it returns is as long as the input and holds no entry
    twice. *)
Theorem clean_column_names_length_unique (columns : list label) :
  exists out,
    clean_column_names columns = Some out
    /\ List.length out = List.length columns
    /\ NoDup out.
Proof.
  destruct (clean_loop_unique columns [] (NoDup_nil _)) as [out [H [L N]]].
  exists out. repeat split; assumption.
Qed.

(** The alphabet of the names: [p] is any property of characters that the
    lowered labels have and that the placeholder and the suffix respect. *)
Section Alphabet.

Variable p : ascii -> bool.
Hypothesis p_column : all_str p "column_" = true.
Hypothesis p_digit : forall c, isdigit c = true -> p c = true.

Let q (c : ascii) : bool := kept c && p c.

Lemma p_underscore : p "_"%char = true.
Proof.
  pose proof p_column as H. simpl in H.
  repeat (apply andb_true_iff in H; destruct H as [? H]).
  assumption.
Qed.

Lemma tidy_alphabet (col : string) :
  all_str p (lower col) = true -> all_str q (tidy col) = true.
Proof.
  intros H. unfold tidy, q. apply all_str_filter.
  assert (U : all_str p "_" = true)
    by (simpl; now rewrite p_underscore).
  repeat apply all_str_replace; try assumption.
  unfold strip. now apply all_str_rstrip, all_str_lstrip.
Qed.

Lemma q_digits (n : nat) : all_str q (str n) = true.
Proof.
  apply (all_str_impl isdigit); [|apply all_str_str].
  intros c Hc. unfold q, kept.
  now rewrite (digit_alnum c Hc), (p_digit c Hc).
Qed.

Lemma candidate_alphabet (base_name : string) (k : nat) :
  all_str q base_name = true -> all_str q (candidate base_name k) = true.
Proof.
  intros H. destruct k as [|k]; [exact H|].
  unfold candidate. rewrite !all_str_append, H, q_digits.
  unfold q, kept. simpl. now rewrite p_underscore.
Qed.

Lemma placeholder_alphabet (n : nat) :
  all_str p (lower ("column_" ++ str n)) = true.
Proof.
  assert (W : all_str word_char ("column_" ++ str n) = true).
  { rewrite all_str_append. simpl.
    apply (all_str_impl isdigit); [apply digit_word_char | apply all_str_str]. }
  unfold lower. rewrite (map_str_fixed lower_char word_char _ word_char_lower W).
  rewrite all_str_append, p_column. simpl.
  apply (all_str_impl isdigit); [exact p_digit | apply all_str_str].
Qed.

Lemma clean_loop_alphabet :
  forall columns cleaned out,
    (forall s, In (Str s) columns -> all_str p (lower s) = true) ->
    Forall (fun name => all_str q name = true) cleaned ->
    clean_loop columns cleaned = Some out ->
    Forall (fun name => all_str q name = true) out.
Proof.
  induction columns as [|col rest IH]; intros cleaned out Hcols Hcl;
    cbn [clean_loop].
  - intros E. injection E as <-. exact Hcl.
  - match goal with |- context [first_free _ ?b ?b 1 _] => set (base_name := b) end.
    assert (Hbase : all_str q base_name = true).
    { unfold base_name. apply tidy_alphabet. destruct col as [s|].
      - apply Hcols. now left.
      - apply placeholder_alphabet. }
    destruct (first_free _ base_name base_name 1 cleaned) as [name|] eqn:E;
      [|discriminate].
    destruct (first_free_some cleaned base_name _ 0 name E) as [_ [j ->]].
    apply IH.
    + intros s Hs. apply Hcols. now right.
    + apply Forall_app. split; [exact Hcl|].
      constructor; [now apply candidate_alphabet | constructor].
Qed.

End Alphabet.

Lemma lower_not_upper (s : string) :
  all_str (fun c => negb (isupper c)) (lower s) = true.
Proof.
  apply all_str_map. intros c. now rewrite lower_char_not_upper.
Qed.

Lemma lower_ascii (s : string) :
  all_str is_ascii s = true ->
  all_str (fun c => is_ascii c && negb (isupper c)) (lower s) = true.
Proof.
  unfold lower. induction s as [|x s IH]; simpl; [reflexivity|].
  rewrite andb_true_iff. intros [Hx Hs].
  now rewrite (lower_char_ascii x Hx), lower_char_not_upper, (IH Hs).
Qed.

(** C2, as the code has it: every character of every returned identifier
    is one that [str.isalnum] accepts or an underscore (line 122 keeps no
    other, and the suffix of lines 125-127 is an underscore and digits);
    when the string labels are ASCII the characters are a-z, 0-9 and
    underscore. *)
Theorem identifiers_alphabet (columns : list label) :
  exists out,
    clean_column_names columns = Some out
    /\ Forall (fun name => all_str kept name = true) out
    /\ (ascii_labels columns ->
        Forall (fun name => all_str word_char name = true) out).
Proof.
  destruct (clean_column_names_total columns) as [out E].
  exists out. split; [exact E|]. split.
  - assert (H : Forall (fun name =>
                all_str (fun c => kept c && true) name = true) out).
    { apply (clean_loop_alphabet (fun _ => true))
        with (columns := columns) (cleaned := []);
        [reflexivity | reflexivity | | constructor | exact E].
      intros s _. generalize (lower s) as text.
      induction text as [|c text IH]; [reflexivity | exact IH]. }
    eapply Forall_impl; [|exact H].
    intros name. apply all_str_impl. intros c Hc.
    now rewrite andb_true_r in Hc.
  - intros Hascii.
    assert (H : Forall (fun name =>
                all_str (fun c => kept c && (is_ascii c && negb (isupper c)))
                  name = true) out).
    { apply (clean_loop_alphabet (fun c => is_ascii c && negb (isupper c)))
        with (columns := columns) (cleaned := []);
        [reflexivity | apply digit_ascii_lower | | constructor | exact E].
      intros s Hs. apply lower_ascii, Hascii, Hs. }
    eapply Forall_impl; [|exact H].
    intros name. apply all_str_impl, word_char_of_kept.
Qed.

(** The hypothesis of C2's last part at a list of ASCII labels, and the
    alphabet of what it is turned into. *)
Lemma identifiers_alphabet_witness :
  ascii_labels [Str "Total Sales"; NotStr; Str "total-sales"]
  /\ exists out,
       clean_column_names [Str "Total Sales"; NotStr; Str "total-sales"] = Some out
       /\ Forall (fun name => all_str word_char name = true) out.
Proof.
  assert (A : ascii_labels [Str "Total Sales"; NotStr; Str "total-sales"]).
  { intros s [E|[E|[E|[]]]]; try discriminate; injection E as <-; reflexivity. }
  split; [exact A|].
  destruct (identifiers_alphabet [Str "Total Sales"; NotStr; Str "total-sales"])
    as [out [E [_ W]]].
  exists out. split; [exact E | exact (W A)].
Defined.

(** C2 as stated fails: the empty label gives the empty identifier, and
    an accented letter passes [isalnum] and stays. *)
Lemma identifiers_alphabet_counterexample :
  clean_column_names [Str ""; Str e_acute] = Some [""; e_acute]
  /\ normalized "" = false
  /\ normalized e_acute = false.
Proof. vm_compute. repeat split. Qed.

(** C3 as stated fails: the code does not return the list of the spec's
    example. *)
Lemma spec_example_counterexample :
  clean_column_names [Str "Unnamed: 0"; Str "Revenue ($)"; Str "revenue_($)"]
  <> Some ["column_0"; "revenue"; "revenue_1"].
Proof. vm_compute. discriminate. Qed.

(** C3, as the code has it: the space of the second label becomes an
    underscore that stays, so the labels of the example come out as
    [column_0], [revenue_] and [revenue__1]. *)
Theorem spec_example_output :
  clean_column_names [Str "Unnamed: 0"; Str "Revenue ($)"; Str "revenue_($)"]
  = Some ["column_0"; "revenue_"; "revenue__1"].
Proof. vm_compute. reflexivity. Qed.

(** A normalized identifier passes through lines 119-122 unchanged. *)
Lemma tidy_fixed (name : string) :
  all_str word_char name = true -> tidy name = name.
Proof.
  intros W. unfold tidy.
  assert (L : lower name = name)
    by (apply (map_str_fixed lower_char word_char); auto using word_char_lower).
  rewrite L.
  assert (S : strip name = name).
  { unfold strip.
    assert (N : all_str (fun c => negb (isspace c)) name = true)
      by (apply (all_str_impl word_char); auto using word_char_not_space).
    now rewrite (lstrip_fixed _ N), (rstrip_fixed _ N). }
  rewrite S.
  rewrite (replace_fixed word_char "unnamed: " "column_" name),
    (replace_fixed word_char " " "_" name),
    (replace_fixed word_char ":" "_" name),
    (replace_fixed word_char "-" "_" name) by (reflexivity || assumption).
  apply filter_str_fixed.
  apply (all_str_impl word_char); auto using word_char_kept.
Qed.

Lemma clean_loop_fixed :
  forall names cleaned,
    Forall (fun name => all_str word_char name = true) names ->
    NoDup (cleaned ++ names) ->
    clean_loop (map Str names) cleaned = Some (cleaned ++ names)%list.
Proof.
  induction names as [|name rest IH]; intros cleaned W N; cbn [map clean_loop].
  - now rewrite app_nil_r.
  - inversion W as [|? ? Wname Wrest]; subst.
    rewrite (tidy_fixed name Wname).
    assert (F : ~ In name cleaned).
    { intros Hin. apply NoDup_remove_2 in N. apply N.
      apply in_or_app. now left. }
    cbn [first_free]. apply mem_false in F. rewrite F.
    replace (cleaned ++ name :: rest)%list
      with ((cleaned ++ [name]) ++ rest)%list
      by (now rewrite <- app_assoc).
    apply IH; [exact Wrest | now rewrite <- app_assoc].
Qed.

(** C4: a list of normalized identifiers (each not empty and made of a-z,
    0-9 and underscore) without duplicates is returned unchanged. *)
Theorem clean_column_names_idempotent (names : list string) :
  Forall (fun name => normalized name = true) names ->
  NoDup names ->
  clean_column_names (map Str names) = Some names.
Proof.
  intros Hn Hd. unfold clean_column_names.
  apply (clean_loop_fixed names []); [|exact Hd].
  eapply Forall_impl; [|exact Hn].
  intros name H. unfold normalized in H.
  now apply andb_true_iff in H.
Qed.

Lemma clean_column_names_idempotent_witness :
  clean_column_names (map Str ["column_0"; "revenue_"; "revenue__1"])
  = Some ["column_0"; "revenue_"; "revenue__1"].
Proof.
  apply clean_column_names_idempotent.
  - repeat constructor.
  - repeat constructor; simpl; intuition discriminate.
Defined.

End Normalizer.

(** ** The table store gateway *)

Module Gateway.

Import Py PyFacts Frame Database.

(** *** Labels and columns *)

Lemma filter_label_none (l : list (string * Series)) (col : string) :
  ~ In col (map fst l) ->
  filter (fun e => (fst e =? col)%string) l = [].
Proof.
  induction l as [|e l IH]; simpl; [reflexivity|].
  intros H. destruct (String.eqb_spec (fst e) col) as [E|_].
  - exfalso. apply H. now left.
  - apply IH. intros Hin. apply H. now right.
Qed.

Lemma filter_label_unique (l : list (string * Series)) (e : string * Series) :
  NoDup (map fst l) -> In e l ->
  filter (fun x => (fst x =? fst e)%string) l = [e].
Proof.
  induction l as [|x l IH]; simpl; intros N H; [contradiction|].
  inversion N as [|? ? Hx N']; subst.
  destruct H as [->|H].
  - rewrite String.eqb_refl. f_equal. now apply filter_label_none.
  - destruct (String.eqb_spec (fst x) (fst e)) as [E|_]; [|now apply IH].
    exfalso. apply Hx. rewrite E. now apply in_map.
Qed.

Lemma getitem_unique (df : DataFrame) (e : string * Series) :
  NoDup (columns df) -> In e (series df) -> getitem df (fst e) = [snd e].
Proof.
  intros N H. unfold getitem. now rewrite (filter_label_unique _ e N H).
Qed.

Lemma getitem_absent (df : DataFrame) (col : string) :
  ~ In col (columns df) -> getitem df col = [].
Proof.
  intros H. unfold getitem. now rewrite filter_label_none.
Qed.

Lemma unique_NoDup_list (l : list (string * Series)) :
  (forall col, In col (map fst l) ->
     List.length (filter (fun e => (fst e =? col)%string) l) = 1) ->
  NoDup (map fst l).
Proof.
  induction l as [|x l IH]; simpl; intros H; constructor.
  - intros Hin. pose proof (H (fst x) (or_introl eq_refl)) as Hx.
    rewrite String.eqb_refl in Hx. simpl in Hx.
    apply in_map_iff in Hin. destruct Hin as [y [Ey Hy]].
    assert (Hf : In y (filter (fun e => (fst e =? fst x)%string) l)).
    { apply filter_In. split; [exact Hy | now apply String.eqb_eq]. }
    destruct (filter (fun e => (fst e =? fst x)%string) l);
      [contradiction | discriminate].
  - apply IH. intros col Hcol. pose proof (H col (or_intror Hcol)) as Hc.
    destruct (String.eqb_spec (fst x) col) as [E|_]; [|exact Hc].
    exfalso. simpl in Hc.
    apply in_map_iff in Hcol. destruct Hcol as [y [Ey Hy]].
    assert (Hf : In y (filter (fun e => (fst e =? col)%string) l)).
    { apply filter_In. split; [exact Hy | now apply String.eqb_eq]. }
    destruct (filter (fun e => (fst e =? col)%string) l);
      [contradiction | discriminate].
Qed.

Lemma unique_NoDup (df : DataFrame) :
  unique df = true <-> NoDup (columns df).
Proof.
  unfold unique. rewrite forallb_forall. split.
  - intros H. apply unique_NoDup_list. intros col Hcol.
    specialize (H col Hcol). apply Nat.eqb_eq in H.
    unfold getitem in H. now rewrite length_map in H.
  - intros N col Hcol. apply Nat.eqb_eq.
    apply in_map_iff in Hcol. destruct Hcol as [e [<- He]].
    now rewrite (getitem_unique df e N He).
Qed.

(** *** Line 64 *)

Lemma dtypes_of_unique (df : DataFrame) (log : list db_call) :
  NoDup (columns df) ->
  forall l, incl l (series df) ->
    dtypes_of df (map fst l) log = (Ok (map (fun e => dtype (snd e)) l), log).
Proof.
  intros N. induction l as [|e l IH]; intros Hl; [reflexivity|].
  cbn [map dtypes_of]. unfold bind, dtype_of.
  rewrite (getitem_unique df e N) by (apply Hl; now left).
  unfold ret at 1. rewrite IH by (intros x Hx; apply Hl; now right).
  reflexivity.
Qed.

Lemma dtypes_of_log (df : DataFrame) (cols : list string) (log : list db_call) :
  snd (dtypes_of df cols log) = log.
Proof.
  induction cols as [|col cols IH]; [reflexivity|].
  cbn [dtypes_of]. unfold bind, dtype_of.
  destruct (getitem df col) as [|s [|? ?]]; try reflexivity.
  unfold ret at 1. destruct (dtypes_of df cols log) as [[ds|] log'];
    simpl in *; now subst.
Qed.

Lemma dtypes_of_raises (df : DataFrame) (log : list db_call) :
  forall cols,
    forallb (fun col => List.length (getitem df col) =? 1) cols = false ->
    dtypes_of df cols log = (Raised, log).
Proof.
  induction cols as [|col cols IH]; simpl; [discriminate|].
  intros H. unfold bind, dtype_of.
  destruct (getitem df col) as [|s [|? ?]]; try reflexivity.
  simpl in H. unfold ret at 1. now rewrite (IH H).
Qed.

Lemma dtypes_of_columns (df : DataFrame) (log : list db_call) :
  dtypes_of df (columns df) log
  = ((if unique df then Ok (dtypes df) else Raised), log).
Proof.
  destruct (unique df) eqn:U.
  - apply unique_NoDup in U.
    apply (dtypes_of_unique df log U (series df)), incl_refl.
  - now apply dtypes_of_raises.
Qed.

(** *** Lines 48-93, call by call *)

Lemma save_to_postgres_run (db : Store) (df : DataFrame) (table_name : string) :
  connects db = true ->
  let create := create_call df table_name in
  let insert := insert_call df table_name in
  save_to_postgres db df table_name [] =
    if unique df then
      if accepts db [] create then
        if accepts db [create] insert then
          if accepts db [create; insert] Commit
          then (Ok true, [create; insert; Commit; CloseCursor; CloseConn])
          else rolled_back db [create; insert; Commit]
        else rolled_back db [create; insert]
      else (Ok false, [create; CloseCursor; CloseConn])
    else rolled_back db [].
Proof.
  intros C create insert. subst create insert.
  unfold save_to_postgres, create_call, insert_call, rolled_back.
  rewrite C. cbn [negb].
  unfold finally, try_except, bind, create_table, try_except, bind, call, close, ret.
  rewrite dtypes_of_columns.
  destruct (unique df);
    repeat (cbn -[create_table_query insert_query values format_datetimes
                  column_definitions sanitize];
            match goal with
            | |- context [accepts db ?l ?c] => destruct (accepts db l c)
            end);
    reflexivity.
Qed.

(** *** Lines 69-71 *)

Lemma formatted_at_label (col : string) (e : string * Series) :
  fst (formatted_at col e) = fst e.
Proof.
  unfold formatted_at.
  now destruct ((fst e =? col)%string && (dtype (snd e) =? "datetime64[ns]")%string).
Qed.

Lemma formatted_at_labels (col : string) (l : list (string * Series)) :
  map fst (map (formatted_at col) l) = map fst l.
Proof.
  rewrite map_map. apply map_ext. intros e. apply formatted_at_label.
Qed.

Lemma format_column_series (df : DataFrame) (col : string) :
  NoDup (columns df) ->
  series (format_column df col) = map (formatted_at col) (series df)
  /\ nrows (format_column df col) = nrows df.
Proof.
  intros N. unfold format_column.
  destruct (in_dec string_dec col (columns df)) as [Hin|Hout].
  - apply in_map_iff in Hin. destruct Hin as [e [<- He]].
    rewrite (getitem_unique df e N He).
    assert (Same : forall x, In x (series df) ->
              (fst x =? fst e)%string = true -> x = e).
    { intros x Hx Ex.
      assert (Hf : In x (filter (fun y => (fst y =? fst e)%string) (series df)))
        by (apply filter_In; now split).
      rewrite (filter_label_unique _ e N He) in Hf.
      destruct Hf as [<-|[]]. reflexivity. }
    destruct (dtype (snd e) =? "datetime64[ns]")%string eqn:D.
    + split; [|reflexivity]. cbn [series setitem]. apply map_ext_in.
      intros x Hx. unfold formatted_at.
      destruct (fst x =? fst e)%string eqn:Ex; [|reflexivity].
      rewrite (Same x Hx Ex), D. reflexivity.
    + split; [|reflexivity]. rewrite <- (map_id (series df)) at 1.
      apply map_ext_in. intros x Hx. unfold formatted_at.
      destruct (fst x =? fst e)%string eqn:Ex; [|reflexivity].
      rewrite (Same x Hx Ex), D. reflexivity.
  - rewrite (getitem_absent df col Hout). split; [|reflexivity].
    rewrite <- (map_id (series df)) at 1. apply map_ext_in.
    intros x Hx. unfold formatted_at.
    destruct (String.eqb_spec (fst x) col) as [E|_]; [|reflexivity].
    exfalso. apply Hout. rewrite <- E. now apply in_map.
Qed.

Lemma fold_format_series :
  forall cols df,
    NoDup (columns df) ->
    series (fold_left format_column cols df)
    = fold_left (fun l col => map (formatted_at col) l) cols (series df)
    /\ nrows (fold_left format_column cols df) = nrows df.
Proof.
  induction cols as [|col cols IH]; intros df N; [now split|].
  cbn [fold_left]. destruct (format_column_series df col N) as [Hs Hn].
  destruct (IH (format_column df col)) as [Hs' Hn'].
  - unfold columns. rewrite Hs, formatted_at_labels. exact N.
  - rewrite Hs', Hn', Hs, Hn. now split.
Qed.

Lemma fold_pointwise :
  forall cols (l : list (string * Series)),
    fold_left (fun l col => map (formatted_at col) l) cols l
    = map (fun e => fold_left (fun e col => formatted_at col e) cols e) l.
Proof.
  induction cols as [|col cols IH]; intros l; cbn [fold_left].
  - now rewrite map_id.
  - now rewrite IH, map_map.
Qed.

Lemma formatted_at_formatted (col : string) (e : string * Series) :
  formatted_at col (formatted e) = formatted e.
Proof.
  unfold formatted, formatted_at.
  destruct (dtype (snd e) =? "datetime64[ns]")%string eqn:D.
  - cbn [fst snd dtype dt_strftime]. now rewrite andb_false_r.
  - now rewrite D, andb_false_r.
Qed.

Lemma fold_formatted_fixed (cols : list string) (e : string * Series) :
  fold_left (fun e col => formatted_at col e) cols (formatted e) = formatted e.
Proof.
  induction cols as [|col cols IH]; cbn [fold_left]; [reflexivity|].
  now rewrite formatted_at_formatted.
Qed.

Lemma fold_formatted (cols : list string) (e : string * Series) :
  In (fst e) cols ->
  fold_left (fun e col => formatted_at col e) cols e = formatted e.
Proof.
  induction cols as [|col cols IH]; intros H; [contradiction|].
  cbn [fold_left]. unfold formatted_at at 2.
  destruct (String.eqb_spec (fst e) col) as [E|Ne]; cbn [andb].
  - fold (formatted e). apply fold_formatted_fixed.
  - apply IH. destruct H as [H|H]; [congruence | exact H].
Qed.

Lemma format_datetimes_series (df : DataFrame) :
  NoDup (columns df) ->
  series (format_datetimes df) = map formatted (series df)
  /\ nrows (format_datetimes df) = nrows df.
Proof.
  intros N. unfold format_datetimes.
  destruct (fold_format_series (columns df) df N) as [Hs Hn].
  split; [|exact Hn]. rewrite Hs, fold_pointwise.
  apply map_ext_in. intros e He. apply fold_formatted.
  unfold columns. now apply in_map.
Qed.

(** *** [df.values] *)

Lemma values_length (df : DataFrame) : List.length (values df) = nrows df.
Proof. unfold values. now rewrite length_map, length_seq. Qed.

Lemma values_row_length (df : DataFrame) :
  Forall (fun row => List.length row = List.length (series df)) (values df).
Proof.
  unfold values. apply Forall_forall. intros row H.
  apply in_map_iff in H. destruct H as [i [<- _]]. apply length_map.
Qed.

Lemma values_row (df : DataFrame) (i : nat) :
  i < nrows df ->
  nth_error (values df) i
  = Some (map (fun e => nth i (data (snd e)) Missing) (series df)).
Proof.
  intros H. unfold values.
  assert (E : nth_error (seq 0 (nrows df)) i = Some i).
  { rewrite (nth_error_nth' _ 0) by (now rewrite length_seq).
    now rewrite seq_nth. }
  now rewrite (map_nth_error _ i (seq 0 (nrows df)) E).
Qed.

(** *** The statements as text *)

Lemma occurs_refl (a : string) : occurs a a.
Proof. exists "", "". simpl. now rewrite append_nil_r. Qed.

Lemma occurs_append (a pre w post : string) :
  occurs a w -> occurs a (pre ++ w ++ post).
Proof.
  intros [x [y ->]]. exists (pre ++ x), (y ++ post).
  now rewrite !append_assoc.
Qed.

Lemma occurs_left (a w post : string) : occurs a w -> occurs a (w ++ post).
Proof. intros H. apply (occurs_append a "" w post H). Qed.

Lemma occurs_right (a pre w : string) : occurs a w -> occurs a (pre ++ w).
Proof.
  intros H. rewrite <- (append_nil_r w). now apply occurs_append.
Qed.

Lemma occurs_join (sep x : string) (l : list string) :
  In x l -> occurs x (join sep l).
Proof.
  unfold join. induction l as [|y l IH]; intros H; [contradiction|].
  destruct H as [->|H].
  - destruct l; cbn [concat]; [apply occurs_refl | apply occurs_left, occurs_refl].
  - destruct l as [|z l]; [contradiction|].
    change (concat sep (y :: z :: l)) with (y ++ sep ++ concat sep (z :: l)).
    apply occurs_right, occurs_right, IH, H.
Qed.

Lemma column_definitions_series (df : DataFrame) :
  column_definitions (columns df) (dtypes df)
  = map (fun e => fst e ++ " " ++ col_type (dtype (snd e))) (series df).
Proof.
  unfold column_definitions, columns, dtypes.
  induction (series df) as [|e l IH]; cbn [map combine fst snd];
    [reflexivity | now rewrite IH].
Qed.

Lemma occurs_create_table_query (a table_name : string) (defs : list string) :
  occurs a (join ", " defs) -> occurs a (create_table_query table_name defs).
Proof.
  intros [x [y E]]. unfold create_table_query. rewrite E.
  exists (nl ++ indent 12 ++ "DROP TABLE IF EXISTS " ++ table_name ++ ";"
          ++ nl ++ indent 12 ++ "CREATE TABLE " ++ table_name ++ " ("
          ++ nl ++ indent 16 ++ "id SERIAL PRIMARY KEY,"
          ++ nl ++ indent 16 ++ "created_at TIMESTAMP DEFAULT CURRENT_TIMESTAMP,"
          ++ nl ++ indent 16 ++ x),
         (y ++ nl ++ indent 12 ++ ");" ++ nl ++ indent 8).
  now rewrite !append_assoc.
Qed.

Lemma occurs_insert_query (a table_name : string) (cols : list string) :
  occurs a (join ", " cols) -> occurs a (insert_query table_name cols).
Proof.
  intros [x [y E]]. unfold insert_query. rewrite E.
  exists (nl ++ indent 12 ++ "INSERT INTO " ++ table_name ++ " (" ++ x),
         (y ++ ")" ++ nl ++ indent 12 ++ "VALUES %s;" ++ nl ++ indent 8).
  now rewrite !append_assoc.
Qed.

(** *** The schema inferencer *)

(** C5: the storage type of a type tag is NUMERIC, TIMESTAMP or TEXT;
    [int64] and [float64] give NUMERIC, [datetime64[ns]] gives TIMESTAMP,
    and every other tag gives TEXT. *)
Theorem col_type_mapping (dtype : string) :
  (col_type dtype = "NUMERIC" \/ col_type dtype = "TIMESTAMP"
   \/ col_type dtype = "TEXT")
  /\ (dtype = "int64" \/ dtype = "float64" -> col_type dtype = "NUMERIC")
  /\ (dtype = "datetime64[ns]" -> col_type dtype = "TIMESTAMP")
  /\ (dtype <> "int64" -> dtype <> "float64" -> dtype <> "datetime64[ns]" ->
      col_type dtype = "TEXT").
Proof.
  unfold col_type, mem. cbn [existsb].
  destruct (String.eqb_spec dtype "int64") as [->|N1];
    [cbn; intuition congruence|].
  destruct (String.eqb_spec dtype "float64") as [->|N2];
    [cbn; intuition congruence|].
  cbn [orb].
  destruct (String.eqb_spec dtype "datetime64[ns]") as [->|N3];
    intuition congruence.
Qed.

(** The three branches of C5 at the tags pandas gives an integer, a
    timestamp and a text column. *)
Lemma col_type_mapping_witness :
  col_type "int64" = "NUMERIC"
  /\ col_type "datetime64[ns]" = "TIMESTAMP"
  /\ col_type "object" = "TEXT".
Proof.
  split; [|split].
  - apply (col_type_mapping "int64"). now left.
  - now apply (col_type_mapping "datetime64[ns]").
  - apply (col_type_mapping "object"); discriminate.
Defined.

(** *** The table name *)

Lemma sanitize_alphabet (table_name : string) :
  all_str (fun c => kept c && negb (isupper c)) (sanitize table_name) = true.
Proof.
  unfold sanitize, lower.
  pose proof (all_str_filter_keep kept table_name) as K.
  induction (filter_str kept table_name) as [|x r IH]; [reflexivity|].
  cbn [all_str map_str] in *. apply andb_true_iff in K. destruct K as [Kx Kr].
  now rewrite (lower_char_alnum x Kx), lower_char_not_upper, (IH Kr).
Qed.

Lemma valid_table_name_alphabet (table_name : string) :
  valid_table_name table_name = true -> all_str kept table_name = true.
Proof.
  unfold valid_table_name, isalnum_str.
  rewrite negb_true_iff, andb_false_iff, !negb_false_iff.
  intros [H|H].
  - apply andb_true_iff in H. destruct H as [_ H].
    apply (all_str_impl isalnum); [|exact H].
    intros c Hc. unfold kept. now rewrite Hc.
  - apply (all_str_impl ascii_word); [apply ascii_word_alnum | exact H].
Qed.

Lemma fetch_from_postgres_run (db : Store) (table_name : string) :
  connects db = true ->
  fetch_from_postgres db table_name [] =
    let query := ReadSql ("SELECT * FROM " ++ table_name ++ ";") in
    if valid_table_name table_name then
      ((if accepts db [] query
        then Ok (answers db [] ("SELECT * FROM " ++ table_name ++ ";"))
        else Ok empty),
       [query; CloseConn])
    else (Ok empty, [CloseConn]).
Proof.
  intros C. unfold fetch_from_postgres. rewrite C. cbn [negb].
  unfold finally, try_except, read_sql, raise, ret, close.
  destruct (valid_table_name table_name); cbn -[append]; [|reflexivity].
  now destruct (accepts db []
                  (ReadSql ("SELECT * FROM " ++ table_name ++ ";"))).
Qed.

Lemma word_char_ascii_word (c : ascii) :
  word_char c = true -> ascii_word c = true.
Proof. each_char c. Qed.

Lemma kept_ascii_lower (c : ascii) :
  kept c && is_ascii c = true -> word_char (lower_char c) = true.
Proof. each_char c. Qed.

Lemma sanitize_ascii (table_name : string) :
  all_str is_ascii table_name = true ->
  all_str word_char (sanitize table_name) = true.
Proof.
  intros A. unfold sanitize, lower.
  pose proof (all_str_filter is_ascii kept table_name A) as K.
  induction (filter_str kept table_name) as [|x r IH]; [reflexivity|].
  cbn [all_str map_str] in *. apply andb_true_iff in K. destruct K as [Kx Kr].
  now rewrite (kept_ascii_lower x Kx), (IH Kr).
Qed.

(** C6, as the code has it.  Every call [save_to_postgres] makes that
    carries a table name carries the given name with the characters
    [str.isalnum] accepts and the underscore kept and the rest dropped, then
    lowered (line 56); for an ASCII name that text consists of a-z, 0-9 and
    underscore.  [fetch_from_postgres] changes nothing of the name: with a
    connection, it puts the name as given into its one statement when
    [str.isalnum] holds of it or all its characters are ASCII letters,
    digits or underscore (line 102), and returns what was read, or the empty
    frame if reading failed; for any other name it sends no statement and
    returns the empty frame. *)
Theorem table_name_in_statements :
  (forall db df table_name c,
      In c (snd (save_to_postgres db df table_name [])) ->
      let name := lower (filter_str kept table_name) in
      (all_str is_ascii table_name = true -> all_str word_char name = true)
      /\ ((exists definitions,
             c = Execute
                   (nl ++ indent 12 ++ "DROP TABLE IF EXISTS " ++ name ++ ";"
                    ++ nl ++ indent 12 ++ "CREATE TABLE " ++ name ++ " ("
                    ++ nl ++ indent 16 ++ "id SERIAL PRIMARY KEY,"
                    ++ nl ++ indent 16
                    ++ "created_at TIMESTAMP DEFAULT CURRENT_TIMESTAMP,"
                    ++ nl ++ indent 16 ++ join ", " definitions
                    ++ nl ++ indent 12 ++ ");"
                    ++ nl ++ indent 8))
          \/ (exists rows,
                c = ExecuteValues
                      (nl ++ indent 12 ++ "INSERT INTO " ++ name
                       ++ " (" ++ join ", " (columns df) ++ ")"
                       ++ nl ++ indent 12 ++ "VALUES %s;"
                       ++ nl ++ indent 8)
                      rows 1000)
          \/ In c [Execute "ROLLBACK"; Commit; CloseCursor; CloseConn]))
  /\ (forall db table_name,
        let query := "SELECT * FROM " ++ table_name ++ ";" in
        fetch_from_postgres db table_name [] =
          if connects db then
            if isalnum_str table_name || all_str ascii_word table_name then
              ((if accepts db [] (ReadSql query)
                then Ok (answers db [] query) else Ok empty),
               [ReadSql query; CloseConn])
            else (Ok empty, [CloseConn])
          else (Ok empty, [])).
Proof.
  split.
  - intros db df table_name c H name. split; [apply sanitize_ascii|].
    destruct (connects db) eqn:C.
    + rewrite (save_to_postgres_run db df table_name C) in H.
      unfold rolled_back, create_call, insert_call in H.
      fold name in H.
      repeat match type of H with
             | context [if ?b then _ else _] => destruct b
             end;
        simpl in H; cbn [In];
        repeat match type of H with
               | _ \/ _ => destruct H as [H|H]
               | False => contradiction
               end;
        subst c;
        first [ left; eexists; reflexivity
              | right; left; eexists; reflexivity
              | right; right; auto 6 ].
    + unfold save_to_postgres in H. rewrite C in H. contradiction.
  - intros db table_name query.
    destruct (connects db) eqn:C.
    + rewrite (fetch_from_postgres_run db table_name C).
      cbv zeta. unfold valid_table_name. fold query.
      now destruct (isalnum_str table_name),
                   (all_str ascii_word table_name).
    + unfold fetch_from_postgres. now rewrite C.
Qed.

(** Both halves of C6: the name [My Table!] is stored under [mytable] and
    refused by the fetch, which then sends nothing and returns the empty
    frame; the name [mytable] is fetched as given. *)
Lemma table_name_in_statements_witness :
  all_str is_ascii "My Table!" = true
  /\ all_str word_char (lower (filter_str kept "My Table!")) = true
  /\ snd (save_to_postgres willing sales_example "My Table!" [])
     = [ Execute (create_table_query "mytable"
                    ["price NUMERIC"; "sold_at TIMESTAMP"]);
         ExecuteValues (insert_query "mytable" ["price"; "sold_at"])
           [[FloatV 0; StrV "2024-03-09 07:05:01"]] 1000;
         Commit; CloseCursor; CloseConn ]
  /\ fetch_from_postgres willing "My Table!" [] = (Ok empty, [CloseConn])
  /\ fetch_from_postgres willing "mytable" []
     = (Ok (answers willing [] "SELECT * FROM mytable;"),
        [ReadSql "SELECT * FROM mytable;"; CloseConn]).
Proof.
  assert (A : all_str is_ascii "My Table!" = true) by reflexivity.
  assert (I : In CloseConn
                (snd (save_to_postgres willing sales_example "My Table!" [])))
    by (vm_compute; auto 6).
  split; [exact A|].
  split; [exact (proj1 (proj1 table_name_in_statements willing sales_example
                          "My Table!" CloseConn I) A)|].
  split; [vm_compute; reflexivity|].
  split; [exact (proj2 table_name_in_statements willing "My Table!")
         | exact (proj2 table_name_in_statements willing "mytable")].
Defined.

(** C6 as stated fails for the fetch: the name [MyTable] goes into the
    statement with its capitals. *)
Lemma fetch_keeps_capitals :
  snd (fetch_from_postgres willing "MyTable" [])
  = [ReadSql "SELECT * FROM MyTable;"; CloseConn]
  /\ lower "MyTable" <> "MyTable".
Proof. split; [vm_compute; reflexivity | vm_compute; discriminate]. Qed.

(** *** What is stored *)

(** C8, at the upload of its example.  For the frame of two rows with the
    columns [id] and [name], the first call of [save_to_postgres] on a
    connection is the statement below: it defines the serial key [id] of
    line 37 and then the frame's own column [id], so the table it asks for
    has two columns of one name.  A store that refuses the statement makes
    [create_table] return [False] (lines 45-46), and [save_to_postgres]
    returns [False] at line 66: no row is inserted, nothing is committed,
    and the cursor and the connection are closed. *)
Theorem example_upload_names_id_twice (db : Store) :
  connects db = true ->
  let create_text :=
    nl ++ indent 12 ++ "DROP TABLE IF EXISTS people;"
    ++ nl ++ indent 12 ++ "CREATE TABLE people ("
    ++ nl ++ indent 16 ++ "id SERIAL PRIMARY KEY,"
    ++ nl ++ indent 16 ++ "created_at TIMESTAMP DEFAULT CURRENT_TIMESTAMP,"
    ++ nl ++ indent 16 ++ "id NUMERIC, name TEXT"
    ++ nl ++ indent 12 ++ ");"
    ++ nl ++ indent 8 in
  (exists rest,
     snd (save_to_postgres db upload_example "people" [])
     = Execute create_text :: rest)
  /\ (accepts db [] (Execute create_text) = false ->
      save_to_postgres db upload_example "people" []
      = (Ok false, [Execute create_text; CloseCursor; CloseConn])).
Proof.
  intros C create_text.
  rewrite (save_to_postgres_run db upload_example "people" C). cbv zeta.
  change (unique upload_example) with true. cbv iota.
  change (create_call upload_example "people") with (Execute create_text).
  unfold rolled_back.
  destruct (accepts db [] (Execute create_text)).
  - split; [|discriminate].
    repeat match goal with
           | |- context [if ?b then _ else _] => destruct b
           end; eexists; reflexivity.
  - split; [eexists; reflexivity | reflexivity].
Qed.

(** The upload of the example to a store that refuses the statement. *)
Lemma example_upload_names_id_twice_witness :
  connects refusing = true
  /\ save_to_postgres refusing upload_example "people" []
     = (Ok false,
        [ Execute (create_table_query "people" ["id NUMERIC"; "name TEXT"]);
          CloseCursor; CloseConn ]).
Proof.
  split; [reflexivity|].
  exact (proj2 (example_upload_names_id_twice refusing eq_refl) eq_refl).
Defined.

(** *** Column names *)

(** C9: on a connection, for a frame whose labels are distinct, the first
    call of [save_to_postgres] is the CREATE TABLE statement and every label
    stands in it character for character; when the store accepts it, the
    next call is the INSERT statement, and every label stands in that
    character for character too.  Nothing is removed from a label and
    nothing is lowered. *)
Theorem column_names_verbatim (db : Store) (df : DataFrame) (table_name : string) :
  connects db = true ->
  NoDup (columns df) ->
  exists create_text rest,
    snd (save_to_postgres db df table_name []) = Execute create_text :: rest
    /\ (forall col, In col (columns df) -> occurs col create_text)
    /\ (accepts db [] (Execute create_text) = true ->
        exists insert_text rows rest',
          rest = ExecuteValues insert_text rows 1000 :: rest'
          /\ forall col, In col (columns df) -> occurs col insert_text).
Proof.
  intros C N.
  exists (create_table_query (sanitize table_name)
            (column_definitions (columns df) (dtypes df))).
  rewrite (save_to_postgres_run db df table_name C). cbv zeta.
  apply unique_NoDup in N. rewrite N.
  unfold rolled_back. fold (create_call df table_name).
  assert (Hc : forall col, In col (columns df) ->
            occurs col (create_table_query (sanitize table_name)
                          (column_definitions (columns df) (dtypes df)))).
  { intros col Hcol. apply occurs_create_table_query.
    rewrite column_definitions_series.
    apply in_map_iff in Hcol. destruct Hcol as [e [<- He]].
    destruct (occurs_join ", " (fst e ++ " " ++ col_type (dtype (snd e)))
                (map (fun e => fst e ++ " " ++ col_type (dtype (snd e)))
                   (series df))) as [pre [post E]].
    - apply in_map_iff. now exists e.
    - rewrite E. apply occurs_right, occurs_left, occurs_left, occurs_refl. }
  assert (Hi : forall col, In col (columns df) ->
            occurs col (insert_query (sanitize table_name) (columns df))).
  { intros col Hcol. now apply occurs_insert_query, occurs_join. }
  destruct (accepts db [] (create_call df table_name)) eqn:A.
  - destruct (accepts db [create_call df table_name] (insert_call df table_name));
      [destruct (accepts db [create_call df table_name; insert_call df table_name]
                   Commit)|];
      eexists; (split; [reflexivity|]); (split; [exact Hc|]); intros _;
      do 3 eexists; (split; [reflexivity | exact Hi]).
  - eexists. split; [reflexivity|]. split; [exact Hc|].
    discriminate.
Qed.

(** C9 at a frame whose labels hold a space, brackets, a dollar sign, a
    hyphen and capitals. *)
Lemma column_names_verbatim_witness :
  connects willing = true
  /\ NoDup (columns raw_example)
  /\ exists create_text insert_text rows rest,
       snd (save_to_postgres willing raw_example "sales" [])
       = Execute create_text :: ExecuteValues insert_text rows 1000 :: rest
       /\ occurs "unit price ($)" create_text
       /\ occurs "Sold-At" create_text
       /\ occurs "unit price ($)" insert_text
       /\ occurs "Sold-At" insert_text.
Proof.
  assert (N : NoDup (columns raw_example)).
  { repeat constructor; simpl; intuition discriminate. }
  split; [reflexivity|]. split; [exact N|].
  destruct (column_names_verbatim willing raw_example "sales" eq_refl N)
    as [create_text [rest [L [Hc Hi]]]].
  destruct (Hi eq_refl) as [insert_text [rows [rest' [-> Hi']]]].
  exists create_text, insert_text, rows, rest'.
  split; [exact L|].
  repeat split; (apply Hc || apply Hi'); simpl; tauto.
Defined.

(** *** Timestamps *)

(** The text of a field read back as a number. *)

Lemma zeros_cons (k : nat) :
  join "" (repeat "0" (S k)) = String "0" (join "" (repeat "0" k)).
Proof. destruct k; reflexivity. Qed.

Lemma zfill_value (width n : nat) :
  option_map Nat.of_uint (NilEmpty.uint_of_string (zfill width n)) = Some n.
Proof.
  unfold zfill. cbv zeta.
  induction (width - String.length (str n)) as [|k IH].
  - cbn [repeat join String.concat append]. unfold str.
    rewrite NilEmpty.usu. cbn [option_map].
    now rewrite DecimalNat.Unsigned.of_to.
  - rewrite zeros_cons. cbn [append].
    change (NilEmpty.uint_of_string (String "0" ?s))
      with (option_map D0 (NilEmpty.uint_of_string s)).
    destruct (NilEmpty.uint_of_string
                (join "" (repeat "0" k) ++ str n)) as [d|];
      [exact IH | discriminate IH].
Qed.

Lemma zfill_injective (width n m : nat) :
  zfill width n = zfill width m -> n = m.
Proof.
  intros E. pose proof (zfill_value width n) as H.
  rewrite E, zfill_value in H. now injection H.
Qed.

Lemma zfill_digits (width n : nat) : all_str isdigit (zfill width n) = true.
Proof.
  unfold zfill. cbv zeta. rewrite all_str_append, all_str_str, andb_true_r.
  induction (width - String.length (str n)) as [|k IH]; [reflexivity|].
  rewrite zeros_cons. cbn [all_str]. now rewrite IH.
Qed.

(** Two texts that start with digits and go on with a character that is no
    digit agree part by part. *)
Lemma digits_then (a a' b b' : string) (c : ascii) :
  isdigit c = false ->
  all_str isdigit a = true -> all_str isdigit a' = true ->
  a ++ String c b = a' ++ String c b' -> a = a' /\ b = b'.
Proof.
  intros Hc. revert a'.
  induction a as [|x a IH]; intros [|x' a'] Ha Ha' E; cbn [append] in E.
  - injection E as ->. now split.
  - injection E as -> _. cbn [all_str] in Ha'.
    rewrite Hc in Ha'. discriminate.
  - injection E as -> _. cbn [all_str] in Ha.
    rewrite Hc in Ha. discriminate.
  - injection E as -> E. cbn [all_str] in Ha, Ha'.
    apply andb_true_iff in Ha, Ha'.
    destruct (IH a' (proj2 Ha) (proj2 Ha') E) as [-> ->]. now split.
Qed.

(** The text of line 71 tells apart any two timestamps that differ in a
    field from the year down to the second, and no others. *)
Lemma strftime_to_second (t t' : Timestamp) :
  strftime t = strftime t' <-> to_second t = to_second t'.
Proof.
  split.
  - unfold strftime. intros E. cbn [append] in E.
    repeat match type of E with
           | zfill ?w ?n ++ String ?c ?b = zfill ?w ?n' ++ String ?c ?b' =>
               let E1 := fresh "F" in
               destruct (digits_then (zfill w n) (zfill w n') b b' c eq_refl
                           (zfill_digits w n) (zfill_digits w n') E)
                 as [E1 E'];
               clear E; rename E' into E;
               apply zfill_injective in E1
           end.
    apply zfill_injective in E.
    unfold to_second. congruence.
  - intros E. change (strftime (to_second t) = strftime (to_second t')).
    now rewrite E.
Qed.

(** C10: whenever [save_to_postgres] comes to insert, each entry of a
    column whose tag is [datetime64[ns]] that holds a timestamp is inserted
    as a string: the year filled with zeros to four digits, a hyphen, the
    month filled to two digits, a hyphen, the day filled to two digits, a
    space, and the hour, the minute and the second, each filled to two
    digits, with colons between them.  The string of another timestamp is
    the same exactly when the two agree from the year down to the second:
    nothing below the second is sent, and nothing above it is lost. *)
Theorem inserted_timestamps (db : Store) (df : DataFrame) (table_name : string)
    (query : string) (rows : list (list cell)) (page_size : nat) :
  In (ExecuteValues query rows page_size)
     (snd (save_to_postgres db df table_name [])) ->
  forall i j name s t,
    nth_error (series df) j = Some (name, s) ->
    dtype s = "datetime64[ns]" ->
    i < nrows df ->
    nth_error (data s) i = Some (TimeV t) ->
    let text :=
      zfill 4 (year t) ++ "-" ++ zfill 2 (month t) ++ "-" ++ zfill 2 (day t)
      ++ " " ++ zfill 2 (hour t) ++ ":" ++ zfill 2 (minute t)
      ++ ":" ++ zfill 2 (second t) in
    (exists row,
        nth_error rows i = Some row
        /\ nth_error row j = Some (StrV text))
    /\ (forall t', strftime t' = text
                   <-> (year t', month t', day t', hour t', minute t', second t')
                       = (year t, month t, day t, hour t, minute t, second t)).
Proof.
  intros H i j name s t Hj Hd Hi Ht text. split.
  2:{ intros t'. change text with (strftime t).
      rewrite strftime_to_second. unfold to_second.
      split; intros E; injection E as -> -> -> -> -> ->; reflexivity. }
  destruct (connects db) eqn:C.
  2:{ unfold save_to_postgres in H. rewrite C in H. contradiction. }
  rewrite (save_to_postgres_run db df table_name C) in H.
  cbv zeta in H. unfold rolled_back in H.
  assert (R : unique df = true
              /\ rows = values (format_datetimes df)).
  { unfold create_call, insert_call in H.
    repeat match type of H with
           | context [if ?b then _ else _] => destruct b
           end;
      simpl in H;
      repeat match type of H with
             | _ \/ _ => destruct H as [H|H]
             end;
      try discriminate; try contradiction;
      injection H as _ <- _; now split. }
  destruct R as [U ->]. apply unique_NoDup in U.
  destruct (format_datetimes_series df U) as [Hs Hn].
  exists (map (fun e => nth i (data (snd e)) Missing)
            (series (format_datetimes df))).
  split; [apply values_row; now rewrite Hn|].
  rewrite Hs, map_map.
  rewrite (map_nth_error _ j (series df) Hj).
  f_equal. unfold formatted. cbn [snd]. rewrite Hd.
  rewrite String.eqb_refl.
  cbn [snd dt_strftime data].
  rewrite (nth_error_nth _ _ Missing (map_nth_error _ i (data s) Ht)).
  reflexivity.
Qed.

(** C10 at a frame with one timestamp, 2024-03-09 07:05:01 and a quarter of
    a millisecond: the text sent, and the fields another timestamp must
    have to be sent as the same text. *)
Lemma inserted_timestamps_witness :
  In (ExecuteValues (insert_query "sales" ["price"; "sold_at"])
        [[FloatV 0; StrV "2024-03-09 07:05:01"]] 1000)
     (snd (save_to_postgres willing sales_example "sales" []))
  /\ (exists row,
        nth_error [[FloatV 0; StrV "2024-03-09 07:05:01"]] 0 = Some row
        /\ nth_error row 1 = Some (StrV "2024-03-09 07:05:01"))
  /\ (forall t', strftime t' = "2024-03-09 07:05:01"
                 <-> (year t', month t', day t', hour t', minute t', second t')
                     = (2024, 3, 9, 7, 5, 1)).
Proof.
  assert (H : In (ExecuteValues
                    (insert_query "sales" ["price"; "sold_at"])
                    [[FloatV 0; StrV "2024-03-09 07:05:01"]] 1000)
                 (snd (save_to_postgres willing sales_example "sales" []))).
  { vm_compute. right. left. reflexivity. }
  split; [exact H|].
  exact (inserted_timestamps willing sales_example "sales" _ _ _ H 0 1
           "sold_at" _ _ eq_refl eq_refl (le_n 1) eq_refl).
Defined.

End Gateway.

(** ** The insight requestor *)

Module Requestor.

Import Insight.

Section Validation.

Variable schema_prompt queries_prompt code_prompt insights_prompt : template.
Variable modeller_role analyst_role : string.
Variable no_info_error invalid_sample_error : string.
Variable api_error_prefix_ko : string.
Variable client : Client.

(** X1, line 10: [analyze_data_structure] turns a payload that Python
    takes for false (the empty string among them) away with its error text
    before anything is sent. *)
Lemma analyze_data_structure_empty (df_info : payload) :
  truth df_info = false ->
  analyze_data_structure schema_prompt modeller_role no_info_error
    api_error_prefix_ko client df_info
  = (no_info_error, []).
Proof.
  intros H. unfold analyze_data_structure. now rewrite H.
Qed.

(** X2, line 93: [generate_management_insights] turns away, with its error
    text and before anything is sent, a payload that is not a string or has
    fewer than ten characters once stripped. *)
Lemma generate_management_insights_short (sample : payload) :
  match sample with
  | Text s => String.length (Py.strip s) < 10
  | Object _ _ => True
  end ->
  generate_management_insights insights_prompt invalid_sample_error client sample
  = (invalid_sample_error, []).
Proof.
  destruct sample as [s|truthy shown]; intros H; [|reflexivity].
  unfold generate_management_insights.
  apply Nat.ltb_lt in H. now rewrite H.
Qed.

(** C7 fails on the code: with the empty string as payload,
    [generate_analysis_queries] and [generate_postgres_code] each send one
    request to the service, and what they return is the reply of the
    service; [analyze_data_structure] does the same with the one-character
    payload [x]. *)
Theorem unvalidated_payload_is_sent :
  snd (generate_analysis_queries queries_prompt analyst_role client (Text ""))
  = [ gpt4 [ {| role := "system"; content := analyst_role |};
             {| role := "user";
                content := before queries_prompt ++ after queries_prompt |} ] ]
  /\ snd (generate_postgres_code code_prompt client (Text ""))
     = [ gpt4 [ {| role := "system";
                   content := before code_prompt ++ after code_prompt |} ] ]
  /\ snd (analyze_data_structure schema_prompt modeller_role no_info_error
            api_error_prefix_ko client (Text "x"))
     = [ gpt4 [ {| role := "system"; content := modeller_role |};
                {| role := "user";
                   content := before schema_prompt ++ "x" ++ after schema_prompt |} ] ].
Proof.
  unfold generate_analysis_queries, generate_postgres_code,
    analyze_data_structure, ask, fill.
  cbn [truth show negb String.eqb append].
  repeat split;
    match goal with
    | |- context [client ?r] => destruct (client r)
    end; reflexivity.
Qed.

End Validation.

(** X1 at the empty string. *)
Lemma analyze_data_structure_empty_witness :
  analyze_data_structure
    {| before := "<"; after := ">" |} "role" "no data" "API: "
    (fun _ => Content "unused") (Text "")
  = ("no data", []).
Proof.
  apply (analyze_data_structure_empty
           {| before := "<"; after := ">" |} "role" "no data" "API: "
           (fun _ => Content "unused") (Text "")).
  reflexivity.
Defined.

(** X2 at a payload of nine characters between blanks. *)
Lemma generate_management_insights_short_witness :
  generate_management_insights
    {| before := "<"; after := ">" |} "invalid" (fun _ => Content "unused")
    (Text "  a,b,c,d,e  ")
  = ("invalid", []).
Proof.
  apply (generate_management_insights_short
           {| before := "<"; after := ">" |} "invalid"
           (fun _ => Content "unused") (Text "  a,b,c,d,e  ")).
  vm_compute. reflexivity.
Defined.

End Requestor.

(** ** More on the name normaliser *)

Module Renaming.

Import Py PyFacts Labels Normalizer.

(** The inner loop stops at the first candidate that is free. *)
Lemma first_free_exact (cleaned : list string) (base_name : string) :
  forall fuel k0 name,
    first_free fuel base_name (candidate base_name k0) (S k0) cleaned = Some name ->
    exists k,
      k0 <= k
      /\ name = candidate base_name k
      /\ ~ In name cleaned
      /\ forall j, k0 <= j < k -> In (candidate base_name j) cleaned.
Proof.
  induction fuel as [|fuel IH]; intros k0 name H; [discriminate|].
  simpl in H. destruct (mem (candidate base_name k0) cleaned) eqn:M.
  - destruct (IH (S k0) name H) as [k [Hk [E [F B]]]].
    exists k. repeat split; try assumption; [lia|].
    intros j Hj. destruct (Nat.eq_dec j k0) as [->|Hne];
      [now apply mem_In | apply B; lia].
  - injection H as <-. exists k0. repeat split; [lia | now apply mem_false | lia].
Qed.

Lemma first_free_reaches (cleaned : list string) (base_name : string) (k : nat) :
  (forall j, j < k -> In (candidate base_name j) cleaned) ->
  ~ In (candidate base_name k) cleaned ->
  forall fuel k0,
    k0 <= k -> k - k0 < fuel ->
    first_free fuel base_name (candidate base_name k0) (S k0) cleaned
    = Some (candidate base_name k).
Proof.
  intros Hin Hout. induction fuel as [|fuel IH]; intros k0 Hle Hf; [lia|].
  simpl. destruct (Nat.eq_dec k0 k) as [->|Hne].
  - apply mem_false in Hout. now rewrite Hout.
  - assert (M : mem (candidate base_name k0) cleaned = true)
      by (apply mem_In, Hin; lia).
    rewrite M. apply (IH (S k0)); lia.
Qed.

(** What the outer loop returns starts with what it was given. *)
Lemma clean_loop_extends :
  forall columns cleaned out,
    clean_loop columns cleaned = Some out ->
    exists more,
      out = (cleaned ++ more)%list /\ List.length more = List.length columns.
Proof.
  induction columns as [|col rest IH]; intros cleaned out; cbn [clean_loop].
  - intros E. injection E as <-. exists []. now rewrite app_nil_r.
  - destruct (first_free _ _ _ 1 cleaned) as [name|]; [|discriminate].
    intros E. destruct (IH _ _ E) as [more [-> L]].
    exists (name :: more). rewrite <- app_assoc. split; [reflexivity|].
    simpl. now rewrite L.
Qed.

Lemma clean_loop_app :
  forall xs ys cleaned,
    clean_loop (xs ++ ys) cleaned
    = match clean_loop xs cleaned with
      | Some mid => clean_loop ys mid
      | None => None
      end.
Proof.
  induction xs as [|col rest IH]; intros ys cleaned; [reflexivity|].
  rewrite <- app_comm_cons. cbn [clean_loop].
  destruct (first_free _ _ _ 1 cleaned) as [name|]; [apply IH | reflexivity].
Qed.

(** X3: the names given to the first columns do not depend on the columns
    that follow: the result for a list of labels followed by more labels
    starts with the result for the list alone. *)
Theorem clean_column_names_prefix (xs ys : list label) :
  exists out more,
    clean_column_names xs = Some out
    /\ clean_column_names (xs ++ ys) = Some (out ++ more)%list
    /\ List.length more = List.length ys.
Proof.
  unfold clean_column_names. rewrite clean_loop_app.
  destruct (clean_loop_unique xs [] (NoDup_nil _)) as [out [E [_ N]]].
  rewrite E.
  destruct (clean_loop_unique ys out N) as [all [E' _]].
  destruct (clean_loop_extends ys out all E') as [more [-> L]].
  now exists out, more.
Qed.

(** The outer loop, position by position. *)
Lemma clean_loop_positions :
  forall columns cleaned out,
    clean_loop columns cleaned = Some out ->
    forall i col,
      nth_error columns i = Some col ->
      let p := List.length cleaned + i in
      exists k,
        nth_error out p = Some (candidate (base_of p col) k)
        /\ ~ In (candidate (base_of p col) k) (firstn p out)
        /\ forall j, j < k -> In (candidate (base_of p col) j) (firstn p out).
Proof.
  induction columns as [|c rest IH]; intros cleaned out H i col Hi p;
    [destruct i; discriminate|].
  cbn [clean_loop] in H.
  match type of H with
  | context [first_free _ ?b ?b 1 _] => set (base_name := b) in H
  end.
  destruct (first_free _ base_name base_name 1 cleaned) as [name|] eqn:F;
    [|discriminate].
  destruct (clean_loop_extends _ _ _ H) as [more [-> _]].
  destruct i as [|i].
  - injection Hi as ->. subst p. rewrite Nat.add_0_r.
    assert (B : base_of (List.length cleaned) col = base_name)
      by (unfold base_of, base_name; now destruct col).
    rewrite B.
    destruct (first_free_exact cleaned base_name _ 0 name F)
      as [k [_ [-> [Hfree Hbelow]]]].
    exists k.
    rewrite <- app_assoc. rewrite firstn_app, Nat.sub_diag, firstn_all.
    cbn [firstn]. rewrite app_nil_r.
    split; [|split].
    + rewrite nth_error_app2, Nat.sub_diag by lia. reflexivity.
    + exact Hfree.
    + intros j Hj. apply Hbelow. lia.
  - cbn [nth_error] in Hi.
    destruct (IH _ _ H i col Hi) as [k Hk].
    rewrite length_app in Hk. cbn [List.length] in Hk.
    replace (List.length cleaned + 1 + i) with p in Hk by (subst p; lia).
    now exists k.
Qed.

(** X4: each name returned is made from the label at its own position: it
    is the cleaned label, or the cleaned label followed by [_k] for the
    least [k >= 1] such that the name is not among the names before it;
    every candidate tried before it is among the names before it. *)
Theorem clean_column_names_first_free (columns : list label) (out : list string)
    (i : nat) (col : label) :
  clean_column_names columns = Some out ->
  nth_error columns i = Some col ->
  exists k,
    nth_error out i = Some (candidate (base_of i col) k)
    /\ ~ In (candidate (base_of i col) k) (firstn i out)
    /\ forall j, j < k -> In (candidate (base_of i col) j) (firstn i out).
Proof.
  intros H Hi. exact (clean_loop_positions columns [] out H i col Hi).
Qed.

(** X4 at three labels, the third of which cleans to the name of the first
    and whose first suffix is taken by the second. *)
Lemma clean_column_names_first_free_witness :
  clean_column_names [Str "a"; Str "a_1"; Str "A"] = Some ["a"; "a_1"; "a_2"]
  /\ exists k,
       nth_error ["a"; "a_1"; "a_2"] 2 = Some (candidate "a" k)
       /\ ~ In (candidate "a" k) ["a"; "a_1"]
       /\ forall j, j < k -> In (candidate "a" j) ["a"; "a_1"].
Proof.
  assert (E : clean_column_names [Str "a"; Str "a_1"; Str "A"]
              = Some ["a"; "a_1"; "a_2"]) by (vm_compute; reflexivity).
  split; [exact E|].
  exact (clean_column_names_first_free
           [Str "a"; Str "a_1"; Str "A"] ["a"; "a_1"; "a_2"] 2 (Str "A")
           E eq_refl).
Defined.

(** The placeholder of a position passes through lines 119-122
    unchanged, and different positions have different placeholders. *)
Lemma tidy_placeholder (i : nat) : tidy (placeholder i) = placeholder i.
Proof.
  apply tidy_fixed. unfold placeholder. rewrite all_str_append. simpl.
  apply (all_str_impl isdigit); [apply digit_word_char | apply all_str_str].
Qed.

Lemma placeholder_inj (i j : nat) : placeholder i = placeholder j -> i = j.
Proof.
  unfold placeholder. intros H. apply append_cancel_l in H. now apply str_inj.
Qed.

Lemma clean_loop_headerless :
  forall m k,
    clean_loop (repeat NotStr m) (map placeholder (seq 0 k))
    = Some (map placeholder (seq 0 (k + m))).
Proof.
  induction m as [|m IH]; intros k; cbn [repeat clean_loop].
  - now rewrite Nat.add_0_r.
  - rewrite length_map, length_seq.
    fold (placeholder k). rewrite tidy_placeholder.
    assert (F : mem (placeholder k) (map placeholder (seq 0 k)) = false).
    { apply mem_false. intros H. apply in_map_iff in H.
      destruct H as [j [E Hj]]. apply placeholder_inj in E.
      apply in_seq in Hj. lia. }
    cbn [first_free]. rewrite F.
    replace (map placeholder (seq 0 k) ++ [placeholder k])%list
      with (map placeholder (seq 0 (S k)))
      by (now rewrite seq_S, map_app).
    replace (k + S m) with (S k + m) by lia. apply IH.
Qed.

(** X5: a header without a single string label (every label a number,
    [None], ...) gives the names [column_0], [column_1], ... in order. *)
Theorem clean_column_names_headerless (n : nat) :
  clean_column_names (repeat NotStr n) = Some (map placeholder (seq 0 n)).
Proof. exact (clean_loop_headerless n 0). Qed.

Lemma candidates_taken (base_name : string) (k : nat) :
  (forall j, j < k ->
     In (candidate base_name j) (map (candidate base_name) (seq 0 k)))
  /\ ~ In (candidate base_name k) (map (candidate base_name) (seq 0 k)).
Proof.
  split.
  - intros j Hj. apply in_map, in_seq. lia.
  - intros H. apply in_map_iff in H. destruct H as [j [E Hj]].
    apply candidate_inj in E. apply in_seq in Hj. lia.
Qed.

Lemma clean_loop_repeated (s : string) :
  forall m k,
    clean_loop (repeat (Str s) m) (map (candidate (tidy s)) (seq 0 k))
    = Some (map (candidate (tidy s)) (seq 0 (k + m))).
Proof.
  induction m as [|m IH]; intros k; cbn [repeat clean_loop].
  - now rewrite Nat.add_0_r.
  - rewrite length_map, length_seq.
    destruct (candidates_taken (tidy s) k) as [Hin Hout].
    change (first_free (S k) (tidy s) (tidy s) 1
              (map (candidate (tidy s)) (seq 0 k)))
      with (first_free (S k) (tidy s) (candidate (tidy s) 0) 1
              (map (candidate (tidy s)) (seq 0 k))).
    rewrite (first_free_reaches _ (tidy s) k Hin Hout (S k) 0) by lia.
    replace (map (candidate (tidy s)) (seq 0 k) ++ [candidate (tidy s) k])%list
      with (map (candidate (tidy s)) (seq 0 (S k)))
      by (now rewrite seq_S, map_app).
    replace (k + S m) with (S k + m) by lia. apply IH.
Qed.

(** X6: a header that repeats one label [n] times gives the cleaned label,
    then the cleaned label with [_1], [_2], ... up to [_(n-1)], in order. *)
Theorem clean_column_names_repeated (s : string) (n : nat) :
  clean_column_names (repeat (Str s) n)
  = Some (map (candidate (tidy s)) (seq 0 n)).
Proof. exact (clean_loop_repeated s n 0). Qed.

Lemma lower_char_idempotent (c : ascii) :
  lower_char (lower_char c) = lower_char c.
Proof. each_char c. Qed.

Lemma lower_idempotent (s : string) : lower (lower s) = lower s.
Proof.
  unfold lower. induction s as [|x s IH]; simpl; [reflexivity|].
  now rewrite lower_char_idempotent, IH.
Qed.

Lemma clean_loop_lowered :
  forall columns cleaned,
    clean_loop (map lowered columns) cleaned = clean_loop columns cleaned.
Proof.
  induction columns as [|col rest IH]; intros cleaned; [reflexivity|].
  cbn [map clean_loop].
  assert (E : tidy (match lowered col with
                    | Str s => s
                    | NotStr => "column_" ++ str (List.length cleaned)
                    end)
              = tidy (match col with
                      | Str s => s
                      | NotStr => "column_" ++ str (List.length cleaned)
                      end)).
  { destruct col as [s|]; [|reflexivity].
    cbn [lowered]. unfold tidy. now rewrite lower_idempotent. }
  rewrite E.
  destruct (first_free _ _ _ 1 cleaned) as [name|]; [apply IH | reflexivity].
Qed.

(** X7: the case of the letters of the labels does not matter: lowering
    every label first gives the same names. *)
Theorem clean_column_names_ignores_case (columns : list label) :
  clean_column_names (map lowered columns) = clean_column_names columns.
Proof. apply clean_loop_lowered. Qed.

End Renaming.

(** ** More on the table store gateway *)

Module Sessions.

Import Py PyFacts Frame Database Gateway.

Lemma create_call_not_rollback (df : DataFrame) (table_name : string) :
  create_call df table_name <> Execute "ROLLBACK".
Proof.
  unfold create_call, create_table_query, nl. intros H. injection H as H.
  cbn [append] in H. discriminate.
Qed.

Ltac split_run H :=
  repeat match type of H with
         | context [if ?b then _ else _] => destruct b eqn:?
         end.

Ltac split_goal :=
  repeat match goal with
         | |- context [if ?b then _ else _] => destruct b eqn:?
         end.


(** X9: [save_to_postgres] returns [True] exactly when it had a connection,
    no label of the frame names two columns, and the store accepted the
    CREATE TABLE statement, then the insertion, then the commit. *)
Theorem save_to_postgres_succeeds_iff (db : Store) (df : DataFrame)
    (table_name : string) :
  let create := create_call df table_name in
  let insert := insert_call df table_name in
  fst (save_to_postgres db df table_name []) = Ok true
  <-> (connects db = true
       /\ NoDup (columns df)
       /\ accepts db [] create = true
       /\ accepts db [create] insert = true
       /\ accepts db [create; insert] Commit = true).
Proof.
  intros create insert. subst create insert. split.
  - intros H. destruct (connects db) eqn:C.
    2:{ unfold save_to_postgres in H. rewrite C in H. discriminate. }
    rewrite (save_to_postgres_run db df table_name C) in H.
    cbv zeta in H. unfold rolled_back in H.
    split_run H; try discriminate.
    repeat split; try assumption. now apply unique_NoDup.
  - intros [C [N [A1 [A2 A3]]]].
    rewrite (save_to_postgres_run db df table_name C). cbv zeta.
    apply unique_NoDup in N. now rewrite N, A1, A2, A3.
Qed.

(** X9 at the upload of two rows and a store that refuses nothing. *)
Lemma save_to_postgres_succeeds_iff_witness :
  fst (save_to_postgres willing upload_example "people" []) = Ok true.
Proof.
  apply (save_to_postgres_succeeds_iff willing upload_example "people").
  repeat split; try reflexivity.
  repeat constructor; simpl; intuition discriminate.
Defined.

(** X10: [save_to_postgres] lets an exception escape exactly when its
    handler's ROLLBACK is the last statement it sent and the store refused
    it; in every other run it returns a truth value.  A refused CREATE
    TABLE is not such a run: for a frame of distinct labels on a connection
    it is answered with [False] at line 66, and the only calls after the
    statement are the two closes, with no ROLLBACK. *)
Theorem save_to_postgres_raises_iff (db : Store) (df : DataFrame)
    (table_name : string) :
  (fst (save_to_postgres db df table_name []) = Raised
   <-> exists before,
         snd (save_to_postgres db df table_name [])
         = (before ++ [Execute "ROLLBACK"; CloseCursor; CloseConn])%list
         /\ accepts db before (Execute "ROLLBACK") = false)
  /\ (connects db = true ->
      NoDup (columns df) ->
      accepts db [] (create_call df table_name) = false ->
      save_to_postgres db df table_name []
      = (Ok false, [create_call df table_name; CloseCursor; CloseConn])).
Proof.
  split.
  2:{ intros C N A.
      rewrite (save_to_postgres_run db df table_name C). cbv zeta.
      apply unique_NoDup in N. now rewrite N, A. }
  destruct (connects db) eqn:C.
  2:{ unfold save_to_postgres. rewrite C. cbn. split; [discriminate|].
      intros [before [H _]]. destruct before; discriminate. }
  rewrite (save_to_postgres_run db df table_name C). cbv zeta.
  unfold rolled_back.
  pose proof (create_call_not_rollback df table_name) as NR.
  split.
  - intros H. split_run H; try discriminate; cbn [snd];
      eexists; (split; [reflexivity | assumption]).
  - intros [before [L R]].
    split_goal; cbn [fst snd] in *; try reflexivity; exfalso;
      try (apply app_inv_tail in L; subst before; congruence).
    + change [create_call df table_name; insert_call df table_name; Commit;
              CloseCursor; CloseConn]
        with ([create_call df table_name; insert_call df table_name]
              ++ [Commit; CloseCursor; CloseConn])%list in L.
      change (before ++ [Execute "ROLLBACK"; CloseCursor; CloseConn])%list
        with (before ++ [Execute "ROLLBACK"] ++ [CloseCursor; CloseConn])%list in L.
      change [Commit; CloseCursor; CloseConn]
        with ([Commit] ++ [CloseCursor; CloseConn])%list in L.
      rewrite !app_assoc in L. apply app_inv_tail in L.
      apply app_inj_tail in L. destruct L as [_ L]. discriminate.
    + change [create_call df table_name; CloseCursor; CloseConn]
        with (([] ++ [create_call df table_name])
              ++ [CloseCursor; CloseConn])%list in L.
      change (before ++ [Execute "ROLLBACK"; CloseCursor; CloseConn])%list
        with (before ++ [Execute "ROLLBACK"] ++ [CloseCursor; CloseConn])%list in L.
      rewrite app_assoc in L. apply app_inv_tail in L.
      apply app_inj_tail in L. destruct L as [_ L]. contradiction.
Qed.

(** X10 at a store that takes the CREATE TABLE and then refuses both the
    insertion and the ROLLBACK, and at a store that refuses every call. *)
Lemma save_to_postgres_raises_iff_witness :
  fst (save_to_postgres
         {| connects := true;
            accepts := fun log _ => match log with [] => true | _ => false end;
            answers := fun _ _ => empty |}
         sales_example "sales" [])
  = Raised
  /\ save_to_postgres refusing sales_example "sales" []
     = (Ok false, [create_call sales_example "sales"; CloseCursor; CloseConn]).
Proof.
  split.
  - apply (proj1 (save_to_postgres_raises_iff
                    {| connects := true;
                       accepts := fun log _ =>
                                    match log with [] => true | _ => false end;
                       answers := fun _ _ => empty |}
                    sales_example "sales")).
    exists [create_call sales_example "sales";
            insert_call sales_example "sales"].
    split; vm_compute; reflexivity.
  - apply (proj2 (save_to_postgres_raises_iff refusing sales_example "sales"));
      [reflexivity | | reflexivity].
    repeat constructor; simpl; intuition discriminate.
Defined.



(** What an insertion carries. *)
Lemma insertion_rows (db : Store) (df : DataFrame) (table_name : string)
    (query : string) (rows : list (list cell)) (page_size : nat) :
  In (ExecuteValues query rows page_size)
     (snd (save_to_postgres db df table_name [])) ->
  NoDup (columns df) /\ rows = values (format_datetimes df).
Proof.
  intros H. destruct (connects db) eqn:C.
  2:{ unfold save_to_postgres in H. rewrite C in H. contradiction. }
  rewrite (save_to_postgres_run db df table_name C) in H.
  cbv zeta in H. unfold rolled_back, create_call, insert_call in H.
  destruct (unique df) eqn:U.
  - apply unique_NoDup in U. split; [exact U|].
    split_run H; simpl in H;
      repeat match type of H with
             | _ \/ _ => destruct H as [H|H]
             end;
      try discriminate; try contradiction;
      now injection H as _ <- _.
  - simpl in H.
    repeat match type of H with
           | _ \/ _ => destruct H as [H|H]
           end; try discriminate; contradiction.
Qed.

(** X12: whenever [save_to_postgres] comes to insert a frame that has a
    column of Python objects (tag [object], or tag [datetime64[ns]], which
    line 71 turns into strings), each entry of a column whose tag is not
    [datetime64[ns]] is inserted as it stands in the frame after line 53,
    at its row and at the place of its column. *)
Theorem inserted_other_columns (db : Store) (df : DataFrame) (table_name : string)
    (query : string) (rows : list (list cell)) (page_size : nat) :
  In (ExecuteValues query rows page_size)
     (snd (save_to_postgres db df table_name [])) ->
  (exists e, In e (series df)
             /\ (dtype (snd e) = "object" \/ dtype (snd e) = "datetime64[ns]")) ->
  forall i j name s c,
    nth_error (series df) j = Some (name, s) ->
    dtype s <> "datetime64[ns]" ->
    i < nrows df ->
    nth_error (data s) i = Some c ->
    exists row,
      nth_error rows i = Some row /\ nth_error row j = Some c.
Proof.
  intros H _ i j name s c Hj Hd Hi Hc.
  destruct (insertion_rows _ _ _ _ _ _ H) as [N ->].
  destruct (format_datetimes_series df N) as [Hs Hn].
  exists (map (fun e => nth i (data (snd e)) Missing)
            (series (format_datetimes df))).
  split; [apply values_row; now rewrite Hn|].
  rewrite Hs, map_map.
  rewrite (map_nth_error _ j (series df) Hj).
  f_equal. unfold formatted. cbn [snd].
  apply String.eqb_neq in Hd. rewrite Hd. cbn [snd].
  now apply nth_error_nth.
Qed.

(** X12 at the price column of a frame that also has a timestamp column. *)
Lemma inserted_other_columns_witness :
  exists row,
    nth_error [[FloatV 0; StrV "2024-03-09 07:05:01"]] 0 = Some row
    /\ nth_error row 0 = Some (FloatV 0).
Proof.
  assert (H : In (ExecuteValues
                    (insert_query "sales" ["price"; "sold_at"])
                    [[FloatV 0; StrV "2024-03-09 07:05:01"]] 1000)
                 (snd (save_to_postgres willing sales_example "sales" []))).
  { vm_compute. right. left. reflexivity. }
  refine (inserted_other_columns willing sales_example "sales" _ _ _ H _ 0 0
            "price" _ _ eq_refl _ (le_n 1) eq_refl).
  - eexists. split; [right; left; reflexivity | right; reflexivity].
  - discriminate.
Defined.

(** *** The table that is stored *)

(** X21: whenever [save_to_postgres] returns [True], the calls it made are
    the statement that drops and creates the table under the filtered and
    lowered name, whose columns are the serial key [id], then [created_at],
    then one definition per column of the frame in the frame's order, each
    the label, a space and the storage type of its tag; then one insertion
    under the same name and the frame's labels, of as many rows as the
    frame has, each with one entry per column; then the commit and the two
    closes. *)
Theorem stored_table_shape (db : Store) (df : DataFrame) (table_name : string) :
  fst (save_to_postgres db df table_name []) = Ok true ->
  let stored_name := lower (filter_str kept table_name) in
  let definitions :=
    map (fun e => fst e ++ " " ++ col_type (dtype (snd e))) (series df) in
  exists rows,
    snd (save_to_postgres db df table_name [])
    = [ Execute
          (nl ++ indent 12 ++ "DROP TABLE IF EXISTS " ++ stored_name ++ ";"
           ++ nl ++ indent 12 ++ "CREATE TABLE " ++ stored_name ++ " ("
           ++ nl ++ indent 16 ++ "id SERIAL PRIMARY KEY,"
           ++ nl ++ indent 16 ++ "created_at TIMESTAMP DEFAULT CURRENT_TIMESTAMP,"
           ++ nl ++ indent 16 ++ join ", " definitions
           ++ nl ++ indent 12 ++ ");"
           ++ nl ++ indent 8);
        ExecuteValues
          (nl ++ indent 12 ++ "INSERT INTO " ++ stored_name
           ++ " (" ++ join ", " (map fst (series df)) ++ ")"
           ++ nl ++ indent 12 ++ "VALUES %s;"
           ++ nl ++ indent 8)
          rows 1000;
        Commit; CloseCursor; CloseConn ]
    /\ List.length rows = nrows df
    /\ Forall (fun row => List.length row = List.length (series df)) rows.
Proof.
  intros H stored_name definitions.
  destruct (connects db) eqn:C.
  2:{ unfold save_to_postgres in H. rewrite C in H. discriminate. }
  rewrite (save_to_postgres_run db df table_name C) in *.
  cbv zeta in *. unfold rolled_back in *.
  destruct (unique df) eqn:U.
  2:{ cbn [fst] in H.
      destruct (accepts db [] (Execute "ROLLBACK")); discriminate. }
  apply unique_NoDup in U.
  repeat match type of H with
         | context [if ?b then _ else _] => destruct b
         end; try discriminate.
  exists (values (format_datetimes df)). split; [|split].
  - cbn [snd]. unfold create_call, insert_call, create_table_query.
    now rewrite column_definitions_series.
  - destruct (format_datetimes_series df U) as [_ Hn].
    now rewrite values_length.
  - destruct (format_datetimes_series df U) as [Hs _].
    eapply Forall_impl; [|apply values_row_length].
    intros row Hrow. cbv beta in Hrow. rewrite Hrow, Hs.
    now rewrite length_map.
Qed.

(** X21 at a frame of one row with a float column and a timestamp column,
    stored under the name [Sales 2024]. *)
Lemma stored_table_shape_witness :
  fst (save_to_postgres willing sales_example "Sales 2024" []) = Ok true
  /\ exists rows,
       snd (save_to_postgres willing sales_example "Sales 2024" [])
       = [ Execute (create_table_query "sales2024"
                      ["price NUMERIC"; "sold_at TIMESTAMP"]);
           ExecuteValues (insert_query "sales2024" ["price"; "sold_at"])
             rows 1000;
           Commit; CloseCursor; CloseConn ]
       /\ List.length rows = 1.
Proof.
  assert (S : fst (save_to_postgres willing sales_example "Sales 2024" [])
              = Ok true)
    by (vm_compute; reflexivity).
  split; [exact S|].
  destruct (stored_table_shape willing sales_example "Sales 2024" S)
    as [rows [L [N _]]].
  exists rows. split; [exact L | exact N].
Defined.

(** *** The stored name and the fetch *)

Lemma not_upper_lower (c : ascii) :
  negb (isupper c) = true -> lower_char c = c.
Proof.
  unfold lower_char. now destruct (isupper c).
Qed.

Lemma sanitize_idempotent (table_name : string) :
  sanitize (sanitize table_name) = sanitize table_name.
Proof.
  pose proof (sanitize_alphabet table_name) as A.
  unfold sanitize at 1.
  rewrite filter_str_fixed.
  - apply (map_str_fixed lower_char (fun c => negb (isupper c)));
      [apply not_upper_lower|].
    apply (all_str_impl (fun c => kept c && negb (isupper c))); [|exact A].
    intros c H. now apply andb_true_iff in H.
  - apply (all_str_impl (fun c => kept c && negb (isupper c))); [|exact A].
    intros c H. now apply andb_true_iff in H.
Qed.

(** X13: the name under which [save_to_postgres] stores a table with an
    ASCII name is a name that [fetch_from_postgres] accepts and puts into
    its statement unchanged, and storing under that name again uses the
    same name. *)
Theorem stored_name_is_fetched (db : Store) (table_name : string) :
  all_str is_ascii table_name = true ->
  connects db = true ->
  sanitize (sanitize table_name) = sanitize table_name
  /\ snd (fetch_from_postgres db (sanitize table_name) [])
     = [ReadSql ("SELECT * FROM " ++ sanitize table_name ++ ";"); CloseConn].
Proof.
  intros A C. split; [apply sanitize_idempotent|].
  rewrite (fetch_from_postgres_run db _ C). cbv zeta.
  assert (V : valid_table_name (sanitize table_name) = true).
  { unfold valid_table_name.
    assert (W : all_str ascii_word (sanitize table_name) = true)
      by (apply (all_str_impl word_char);
          [apply word_char_ascii_word | now apply sanitize_ascii]).
    rewrite W. cbn [negb]. now rewrite andb_false_r. }
  now rewrite V.
Qed.

(** X13 at the name [My Table!], stored and fetched as [mytable]. *)
Lemma stored_name_is_fetched_witness :
  sanitize "My Table!" = "mytable"
  /\ snd (fetch_from_postgres willing (sanitize "My Table!") [])
     = [ReadSql "SELECT * FROM mytable;"; CloseConn].
Proof.
  split; [vm_compute; reflexivity|].
  exact (proj2 (stored_name_is_fetched willing "My Table!" eq_refl eq_refl)).
Defined.

(** X14: [fetch_from_postgres] never lets an exception escape.  What it
    returns is the frame the store reads for its statement when it had a
    connection, the name passed line 102 and the store accepted the query,
    and the empty frame in every other case.  Without a connection it asks
    nothing; on a connection it sends its statement when the name passed
    line 102 and no statement otherwise, and the last thing it does is to
    close the connection. *)
Theorem fetch_from_postgres_result (db : Store) (table_name : string) :
  let query := "SELECT * FROM " ++ table_name ++ ";" in
  fst (fetch_from_postgres db table_name [])
  = Ok (if connects db && valid_table_name table_name
           && accepts db [] (ReadSql query)
        then answers db [] query
        else empty)
  /\ snd (fetch_from_postgres db table_name [])
     = (if connects db
        then if valid_table_name table_name
             then [ReadSql query; CloseConn]
             else [CloseConn]
        else []).
Proof.
  intros query. subst query. destruct (connects db) eqn:C.
  - rewrite (fetch_from_postgres_run db table_name C). cbv zeta.
    destruct (valid_table_name table_name) eqn:V; cbn [fst snd andb].
    + split; [|reflexivity].
      now destruct (accepts db []
                      (ReadSql ("SELECT * FROM " ++ table_name ++ ";"))).
    + now split.
  - unfold fetch_from_postgres. rewrite C. cbn. now split.
Qed.

(** *** From the page to the store *)




End Sessions.

(** ** The table list and the analysis archive *)

Module ArchiveFacts.

Import Frame Database Archive.

Ltac split_on_permits :=
  repeat match goal with
         | |- context [permits ?s ?l ?c] =>
             let P := fresh "P" in destruct (permits s l c) eqn:P
         end.

(** *** The runs, call by call *)

Lemma list_tables_run (srv : Server) (log : list call) :
  list_tables srv log =
    let query := Plain (ReadSql list_tables_query) in
    if permits srv log Connect then
      ((if permits srv (log ++ [Connect]) query then
          match getitem (shows srv (log ++ [Connect]) list_tables_query)
                  "table_name" with
          | [s] => Ok (data s)
          | _ => Ok []
          end
        else Ok []),
       (log ++ [Connect; query; Plain CloseConn])%list)
    else (Ok [], (log ++ [Connect])%list).
Proof.
  unfold list_tables, and_then, get_db_connection, ensuring, guarded, read,
    shut, unit_run, fail.
  cbv zeta.
  destruct (permits srv log Connect); cbn [negb]; [|reflexivity].
  destruct (permits srv (log ++ [Connect]) (Plain (ReadSql list_tables_query)));
    cbn [snd].
  - destruct (getitem (shows srv (log ++ [Connect]) list_tables_query)
                "table_name") as [|s [|? ?]];
      cbn [snd]; now rewrite <- !app_assoc.
  - now rewrite <- !app_assoc.
Qed.

Lemma create_analysis_archive_table_run (srv : Server) (log : list call) :
  create_analysis_archive_table srv log =
    let create := Plain (Execute create_query) in
    if permits srv log Connect then
      if permits srv (log ++ [Connect]) Cursor then
        if permits srv (log ++ [Connect; Cursor]) create then
          (Ok tt,
           (log ++ [Connect; Cursor; create; Plain Commit;
                    Plain CloseCursor; Plain CloseConn])%list)
        else
          (Ok tt,
           (log ++ [Connect; Cursor; create;
                    Plain CloseCursor; Plain CloseConn])%list)
      else (Raised, (log ++ [Connect; Cursor])%list)
    else (Ok tt, (log ++ [Connect])%list).
Proof.
  unfold create_analysis_archive_table, with_cursor, and_then,
    get_db_connection, ensuring, guarded, send, shut, unit_run.
  cbv zeta.
  destruct (permits srv log Connect); cbn [negb]; [|reflexivity].
  destruct (permits srv (log ++ [Connect]) Cursor); cbn [snd];
    [|now rewrite <- !app_assoc].
  rewrite <- (app_assoc log [Connect]). cbn [Datatypes.app].
  destruct (permits srv (log ++ [Connect; Cursor])
              (Plain (Execute create_query)));
    cbn [snd].
  - match goal with
    | |- context [permits srv ?l (Plain Commit)] =>
        destruct (permits srv l (Plain Commit))
    end;
      cbn [snd]; now rewrite <- !app_assoc.
  - now rewrite <- !app_assoc.
Qed.

Lemma save_analysis_result_run (srv : Server)
    (file_name sheet_name table_structure analysis_queries insights
       raw_sample_data : string) (ppt_report : option string)
    (log : list call) :
  save_analysis_result srv file_name sheet_name table_structure
    analysis_queries insights raw_sample_data ppt_report log =
    let first := snd (create_analysis_archive_table srv log) in
    let insert :=
      ExecuteWith insert_query
        [Some file_name; Some sheet_name; Some table_structure;
         Some analysis_queries; Some insights; Some raw_sample_data;
         ppt_report] in
    match fst (create_analysis_archive_table srv log) with
    | Raised => (Raised, first)
    | Ok _ =>
        if permits srv first Connect then
          if permits srv (first ++ [Connect]) Cursor then
            if permits srv (first ++ [Connect; Cursor]) insert then
              if permits srv (first ++ [Connect; Cursor; insert]) (Plain Commit)
              then
                (Ok true,
                 (first ++ [Connect; Cursor; insert; Plain Commit;
                            Plain CloseCursor; Plain CloseConn])%list)
              else
                (Ok false,
                 (first ++ [Connect; Cursor; insert; Plain Commit;
                            Plain CloseCursor; Plain CloseConn])%list)
            else
              (Ok false,
               (first ++ [Connect; Cursor; insert;
                          Plain CloseCursor; Plain CloseConn])%list)
          else (Raised, (first ++ [Connect; Cursor])%list)
        else (Ok false, (first ++ [Connect])%list)
    end.
Proof.
  unfold save_analysis_result. unfold and_then at 1.
  destruct (create_analysis_archive_table srv log) as [[u|] first];
    cbn [fst snd]; [|reflexivity].
  cbv zeta.
  unfold with_cursor, and_then, get_db_connection, ensuring, guarded, send,
    shut, unit_run.
  destruct (permits srv first Connect); cbn [negb]; [|reflexivity].
  destruct (permits srv (first ++ [Connect]) Cursor); cbn [snd];
    [|now rewrite <- !app_assoc].
  rewrite <- (app_assoc first [Connect]). cbn [Datatypes.app].
  match goal with
  | |- context [permits srv (first ++ [Connect; Cursor]) ?i] =>
      destruct (permits srv (first ++ [Connect; Cursor]) i) eqn:I
  end; cbn [snd].
  - rewrite <- (app_assoc first [Connect; Cursor]). cbn [Datatypes.app].
    match goal with
    | |- context [permits srv ?l (Plain Commit)] =>
        destruct (permits srv l (Plain Commit))
    end; cbn [snd]; now rewrite <- !app_assoc.
  - now rewrite <- !app_assoc.
Qed.

Lemma list_analysis_results_run (srv : Server) (log : list call) :
  list_analysis_results srv log =
    let query := Plain (ReadSql list_analysis_query) in
    if permits srv log Connect then
      ((if permits srv (log ++ [Connect]) query
        then Ok (shows srv (log ++ [Connect]) list_analysis_query)
        else Ok empty),
       (log ++ [Connect; query; Plain CloseConn])%list)
    else (Ok empty, (log ++ [Connect])%list).
Proof.
  unfold list_analysis_results, and_then, get_db_connection, ensuring, guarded,
    read, shut, unit_run.
  cbv zeta.
  destruct (permits srv log Connect); cbn [negb]; [|reflexivity].
  destruct (permits srv (log ++ [Connect]) (Plain (ReadSql list_analysis_query)));
    cbn [snd]; now rewrite <- !app_assoc.
Qed.

(** *** What the runs keep *)

(** X16: [list_tables] never lets an exception escape.  It returns the
    entries of the column [table_name] of the frame read when the
    connection was had, the query accepted and the frame has one column of
    that name, and the empty list in every other case.  Without a
    connection it asks nothing more; with one it sends its fixed query, and
    nothing else, and closes the connection. *)
Theorem list_tables_result (srv : Server) (log : list call) :
  let query :=
    "SELECT table_name FROM information_schema.tables WHERE table_schema = 'public';" in
  fst (list_tables srv log)
  = Ok (if permits srv log Connect
           && permits srv (log ++ [Connect]) (Plain (ReadSql query))
        then match getitem (shows srv (log ++ [Connect]) query)
                     "table_name" with
             | [s] => data s
             | _ => []
             end
        else [])
  /\ snd (list_tables srv log)
     = (if permits srv log Connect
        then log ++ [Connect; Plain (ReadSql query); Plain CloseConn]
        else log ++ [Connect])%list.
Proof.
  intros query. rewrite list_tables_run. cbv zeta.
  change list_tables_query with query.
  destruct (permits srv log Connect) eqn:P1; cbn [fst snd andb];
    [|now split].
  split; [|reflexivity].
  destruct (permits srv (log ++ [Connect]) (Plain (ReadSql query)));
    [|reflexivity].
  now destruct (getitem (shows srv (log ++ [Connect]) query) "table_name")
    as [|s [|? ?]].
Qed.

(** X17: [save_analysis_result] first runs
    [create_analysis_archive_table].  That run lets an exception escape
    exactly when it had a connection and [conn.cursor()] raised, and then
    [save_analysis_result] ends with that exception, having asked for no
    connection of its own.  Otherwise it asks for a connection: without one
    it returns [False]; when [conn.cursor()] raises on it, an exception
    escapes; else it sends the insertion with its seven arguments, in
    order, as parameters, commits when the insertion was accepted, returns
    [True] exactly when both were accepted, and closes the cursor and the
    connection last. *)
Theorem save_analysis_result_shape (srv : Server)
    (file_name sheet_name table_structure analysis_queries insights
       raw_sample_data : string) (ppt_report : option string)
    (log : list call) :
  let table := create_analysis_archive_table srv log in
  let first := snd table in
  let insert :=
    ExecuteWith insert_query
      [Some file_name; Some sheet_name; Some table_structure;
       Some analysis_queries; Some insights; Some raw_sample_data;
       ppt_report] in
  let run :=
    save_analysis_result srv file_name sheet_name table_structure
      analysis_queries insights raw_sample_data ppt_report log in
  (fst table = Raised
   <-> permits srv log Connect = true
       /\ permits srv (log ++ [Connect]) Cursor = false)
  /\ (fst table = Raised -> run = (Raised, first))
  /\ (fst table = Ok tt ->
      (permits srv first Connect = false ->
       run = (Ok false, (first ++ [Connect])%list))
      /\ (permits srv first Connect = true ->
          permits srv (first ++ [Connect]) Cursor = false ->
          run = (Raised, (first ++ [Connect; Cursor])%list))
      /\ (permits srv first Connect = true ->
          permits srv (first ++ [Connect]) Cursor = true ->
          let accepted := permits srv (first ++ [Connect; Cursor]) insert in
          let committed :=
            permits srv (first ++ [Connect; Cursor; insert]) (Plain Commit) in
          run = (Ok (accepted && committed),
                 (first ++ [Connect; Cursor; insert]
                  ++ (if accepted then [Plain Commit] else [])
                  ++ [Plain CloseCursor; Plain CloseConn])%list))).
Proof.
  intros table first insert run. subst run.
  rewrite save_analysis_result_run. cbv zeta.
  fold table. fold first. fold insert.
  split; [|split].
  - subst table. rewrite create_analysis_archive_table_run. cbv zeta.
    destruct (permits srv log Connect);
      [destruct (permits srv (log ++ [Connect]) Cursor);
       [destruct (permits srv (log ++ [Connect; Cursor])
                    (Plain (Execute create_query)))|]|];
      cbn [fst]; split; try discriminate; try (now intros [? ?]); auto.
  - now intros ->.
  - intros ->. split; [|split].
    + now intros ->.
    + now intros -> ->.
    + intros P1 P2. cbv zeta. rewrite P1, P2.
      now destruct (permits srv (first ++ [Connect; Cursor]) insert),
                   (permits srv (first ++ [Connect; Cursor; insert])
                      (Plain Commit)).
Qed.

(** X17 at a server that refuses nothing: two connections, the table
    statement on the first and the insertion on the second. *)
Lemma save_analysis_result_shape_witness :
  save_analysis_result open_server "f" "s" "t" "q" "i" "r" None []
  = (Ok true,
     [ Connect; Cursor; Plain (Execute create_query); Plain Commit;
       Plain CloseCursor; Plain CloseConn;
       Connect; Cursor;
       ExecuteWith insert_query
         [Some "f"; Some "s"; Some "t"; Some "q"; Some "i"; Some "r"; None];
       Plain Commit; Plain CloseCursor; Plain CloseConn ]).
Proof.
  pose proof (save_analysis_result_shape open_server "f" "s" "t" "q" "i" "r"
                None []) as H.
  cbv zeta in H. destruct H as [_ [_ H]].
  rewrite create_analysis_archive_table_run in H.
  destruct (H eq_refl) as [_ [_ R]].
  exact (R eq_refl eq_refl).
Defined.

(** X18: whatever texts [save_analysis_result] is given, every statement it
    sends is one of two fixed texts, the CREATE TABLE IF NOT EXISTS of the
    archive and the INSERT with seven placeholders: the texts it is given
    travel as parameters only. *)
Theorem save_analysis_result_texts (srv : Server)
    (file_name sheet_name table_structure analysis_queries insights
       raw_sample_data : string) (ppt_report : option string)
    (c : call) (text : string) :
  In c (snd (save_analysis_result srv file_name sheet_name table_structure
               analysis_queries insights raw_sample_data ppt_report [])) ->
  text_of c = Some text ->
  text = create_query \/ text = insert_query.
Proof.
  rewrite save_analysis_result_run. cbv zeta.
  rewrite create_analysis_archive_table_run. cbv zeta.
  intros H T.
  repeat (match type of H with
          | context [if ?b then _ else _] => destruct b
          end; cbn [fst snd] in H);
    cbn [snd Datatypes.app] in H;
    repeat match type of H with
           | In _ (_ :: _) => destruct H as [H|H]
           end;
    try contradiction; subst c; cbn in T;
    first [discriminate | injection T as <-; auto].
Qed.

(** X18 at a file name that is itself a statement. *)
Lemma save_analysis_result_texts_witness :
  In (ExecuteWith insert_query
        [Some "x'); DROP TABLE analysis_archive; --"; Some "s"; Some "t";
         Some "q"; Some "i"; Some "r"; None])
     (snd (save_analysis_result open_server
             "x'); DROP TABLE analysis_archive; --" "s" "t" "q" "i" "r" None []))
  /\ (insert_query = create_query \/ insert_query = insert_query).
Proof.
  assert (H : In (ExecuteWith insert_query
                    [Some "x'); DROP TABLE analysis_archive; --"; Some "s";
                     Some "t"; Some "q"; Some "i"; Some "r"; None])
                 (snd (save_analysis_result open_server
                         "x'); DROP TABLE analysis_archive; --"
                         "s" "t" "q" "i" "r" None []))).
  { rewrite save_analysis_result_run. cbv zeta.
    rewrite create_analysis_archive_table_run. cbv zeta.
    cbn. do 8 right. left. reflexivity. }
  split; [exact H|].
  exact (save_analysis_result_texts open_server _ _ _ _ _ _ _ _ _ H eq_refl).
Defined.

Lemma opened_plain (srv : Server) (before : list call) (c : call)
    (rest : list call) :
  c <> Connect ->
  opened srv before (c :: rest) = opened srv (before ++ [c]) rest.
Proof.
  intros H. cbn [opened]. destruct c; [contradiction | reflexivity ..].
Qed.

Ltac count_sessions :=
  repeat first
    [ rewrite opened_plain by discriminate
    | progress cbn [opened closed Nat.add]
    | progress (rewrite <- ?app_assoc; cbn [Datatypes.app]) ];
  repeat match goal with
         | P : permits _ _ Connect = _ |- _ => rewrite P
         end;
  try reflexivity.

(** X19: [list_tables] and [list_analysis_results] close every connection
    they were given: among the calls of a run, as many connections are
    closed as were opened.  [create_analysis_archive_table] and
    [save_analysis_result] do so in every run that returns; a run of theirs
    that lets an exception escape leaves one connection open, the one on
    which [conn.cursor()] raised. *)
Theorem connections_released (srv : Server) (log : list call) :
  (exists new,
      snd (list_tables srv log) = (log ++ new)%list
      /\ opened srv log new = closed new)
  /\ (exists new,
        snd (create_analysis_archive_table srv log) = (log ++ new)%list
        /\ opened srv log new
           = match fst (create_analysis_archive_table srv log) with
             | Ok _ => closed new
             | Raised => S (closed new)
             end)
  /\ (forall file_name sheet_name table_structure analysis_queries insights
             raw_sample_data ppt_report,
         let run :=
           save_analysis_result srv file_name sheet_name table_structure
             analysis_queries insights raw_sample_data ppt_report log in
         exists new,
           snd run = (log ++ new)%list
           /\ opened srv log new
              = match fst run with
                | Ok _ => closed new
                | Raised => S (closed new)
                end)
  /\ (exists new,
        snd (list_analysis_results srv log) = (log ++ new)%list
        /\ opened srv log new = closed new).
Proof.
  split; [|split; [|split]].
  - rewrite list_tables_run. cbv zeta.
    destruct (permits srv log Connect) eqn:P1; cbn [snd];
      eexists; (split; [reflexivity|]); count_sessions.
  - rewrite create_analysis_archive_table_run. cbv zeta.
    destruct (permits srv log Connect) eqn:P1;
      [destruct (permits srv (log ++ [Connect]) Cursor);
       [destruct (permits srv (log ++ [Connect; Cursor])
                    (Plain (Execute create_query)))|]|];
      cbn [fst snd]; eexists; (split; [reflexivity|]); count_sessions.
  - intros. subst run. rewrite save_analysis_result_run. cbv zeta.
    rewrite create_analysis_archive_table_run. cbv zeta.
    destruct (permits srv log Connect) eqn:P1;
      [destruct (permits srv (log ++ [Connect]) Cursor);
       [destruct (permits srv (log ++ [Connect; Cursor])
                    (Plain (Execute create_query)))|]|];
      cbn [fst snd];
      try match goal with
          | |- context [if permits srv ?l Connect then _ else _] =>
              destruct (permits srv l Connect) eqn:P2
          end;
      repeat match goal with
             | |- context [if permits ?s ?l ?c then _ else _] =>
                 destruct (permits s l c)
             end;
      cbn [fst snd]; rewrite <- ?app_assoc; cbn [Datatypes.app];
      eexists; (split; [reflexivity|]); count_sessions.
  - rewrite list_analysis_results_run. cbv zeta.
    destruct (permits srv log Connect) eqn:P1; cbn [snd];
      eexists; (split; [reflexivity|]); count_sessions.
Qed.

(** X19 at a server that hands out connections and refuses every cursor:
    [save_analysis_result] ends in the table phase with one connection
    opened and none closed. *)
Lemma connections_released_witness :
  save_analysis_result
    {| permits := fun _ c => match c with Cursor => false | _ => true end;
       shows := fun _ _ => empty |}
    "f" "s" "t" "q" "i" "r" None []
  = (Raised, [Connect; Cursor])
  /\ exists new,
       [Connect; Cursor] = ([] ++ new)%list
       /\ opened {| permits := fun _ c =>
                                 match c with Cursor => false | _ => true end;
                    shows := fun _ _ => empty |} [] new
          = S (closed new).
Proof.
  split; [reflexivity|].
  exact (proj1 (proj2 (proj2
           (connections_released
              {| permits := fun _ c =>
                              match c with Cursor => false | _ => true end;
                 shows := fun _ _ => empty |} [])))
           "f" "s" "t" "q" "i" "r" None).
Defined.

End ArchiveFacts.

(** ** The cleanup of temporary files *)

Module FilesFacts.

Import Py PyFacts Files.

Section Kept.

Variable removable : string -> bool.

Lemma remove_In (disk : Disk) (path q : string) :
  In q (remove disk path) <-> In q disk /\ q <> path.
Proof.
  unfold remove. rewrite filter_In, negb_true_iff, String.eqb_neq. tauto.
Qed.

Lemma cleanup_one_In (disk : Disk) (path : option string) (q : string) :
  In q (cleanup_one removable disk path) -> In q disk.
Proof.
  unfold cleanup_one. destruct path as [p|]; [|auto].
  destruct (negb (p =? "")%string && path_exists disk p); [|auto].
  destruct (removable p); [|auto].
  intros H. now apply remove_In in H.
Qed.

Lemma cleanup_one_other (disk : Disk) (path : option string) (q : string) :
  In q disk -> path <> Some q -> In q (cleanup_one removable disk path).
Proof.
  intros H N. unfold cleanup_one. destruct path as [p|]; [|exact H].
  destruct (negb (p =? "")%string && path_exists disk p); [|exact H].
  destruct (removable p); [|exact H].
  apply remove_In. split; [exact H | congruence].
Qed.

Lemma cleanup_one_stuck (disk : Disk) (path : option string) (q : string) :
  In q disk -> removable q = false -> In q (cleanup_one removable disk path).
Proof.
  intros H R. unfold cleanup_one. destruct path as [p|]; [|exact H].
  destruct (negb (p =? "")%string && path_exists disk p); [|exact H].
  destruct (removable p) eqn:Rp; [|exact H].
  apply remove_In. split; [exact H | congruence].
Qed.

Lemma cleanup_one_gone (disk : Disk) (q : string) :
  q <> "" -> removable q = true ->
  ~ In q (cleanup_one removable disk (Some q)).
Proof.
  intros N R. unfold cleanup_one, path_exists.
  apply String.eqb_neq in N. rewrite N, R. cbn [negb andb].
  destruct (mem q disk) eqn:M.
  - intros H. apply remove_In in H. now destruct H.
  - now apply mem_false.
Qed.

Lemma cleanup_In :
  forall paths disk q,
    In q (cleanup_temp_files removable paths disk) -> In q disk.
Proof.
  unfold cleanup_temp_files.
  induction paths as [|p paths IH]; intros disk q H; [exact H|].
  cbn [fold_left] in H. eapply cleanup_one_In, IH, H.
Qed.

(** X20: [cleanup_temp_files] creates no file and removes only files it was
    given: a file that is not among the paths stays; a file that cannot be
    removed stays and does not stop the loop; and a path with a name that
    was given and can be removed does not exist afterwards. *)
Theorem cleanup_temp_files_effect (paths : list (option string)) (disk : Disk)
    (q : string) :
  (In q (cleanup_temp_files removable paths disk) -> In q disk)
  /\ (In q disk -> ~ In (Some q) paths ->
      In q (cleanup_temp_files removable paths disk))
  /\ (In q disk -> removable q = false ->
      In q (cleanup_temp_files removable paths disk))
  /\ (In (Some q) paths -> q <> "" -> removable q = true ->
      ~ In q (cleanup_temp_files removable paths disk)).
Proof.
  split; [apply cleanup_In|]. split; [|split].
  - unfold cleanup_temp_files. revert disk.
    induction paths as [|p paths IH]; intros disk H N; [exact H|].
    cbn [fold_left]. apply IH.
    + apply cleanup_one_other; [exact H|]. intros ->. apply N. now left.
    + intros Hin. apply N. now right.
  - unfold cleanup_temp_files. revert disk.
    induction paths as [|p paths IH]; intros disk H R; [exact H|].
    cbn [fold_left]. apply IH; [now apply cleanup_one_stuck | exact R].
  - intros Hin N R. apply in_split in Hin.
    destruct Hin as [before [after ->]].
    unfold cleanup_temp_files. rewrite fold_left_app. cbn [fold_left].
    intros H. apply (cleanup_In after) in H.
    revert H. now apply cleanup_one_gone.
Qed.

End Kept.

(** X20 at a disk with an upload, a chart that cannot be removed and a
    file of somebody else. *)
Lemma cleanup_temp_files_effect_witness :
  cleanup_temp_files (fun p => negb (p =? "chart.png")%string)
    [Some "/tmp/up.csv"; None; Some "chart.png"; Some "report.pptx"]
    ["/tmp/up.csv"; "chart.png"; "notes.txt"]
  = ["chart.png"; "notes.txt"]
  /\ ~ In "/tmp/up.csv"
       (cleanup_temp_files (fun p => negb (p =? "chart.png")%string)
          [Some "/tmp/up.csv"; None; Some "chart.png"; Some "report.pptx"]
          ["/tmp/up.csv"; "chart.png"; "notes.txt"]).
Proof.
  split; [vm_compute; reflexivity|].
  apply (cleanup_temp_files_effect (fun p => negb (p =? "chart.png")%string)
           [Some "/tmp/up.csv"; None; Some "chart.png"; Some "report.pptx"]
           ["/tmp/up.csv"; "chart.png"; "notes.txt"] "/tmp/up.csv").
  - simpl. tauto.
  - discriminate.
  - reflexivity.
Defined.

End FilesFacts.
